(** * Wishlists: the [Item] and [Wishlist] persistence models of [models.py]

    A shallow embedding of [models.py]: the two model classes, their
    dictionary (de)serialization, and [save]/[delete]/[get]/
    [find_by_customer_id] over a model of the SQLAlchemy session the
    module-level [db] object provides. *)

From stdpp Require Import gmap strings list fin_maps.

Set Warnings "-register-all".
Local Open Scope Z_scope.

(** ** Python values

    The values a request body decoded from JSON can hold, which are also the
    values an instance attribute holds after [deserialize] stored one. *)

Inductive pyval :=
| PNone
| PBool (b : bool)
| PInt (z : Z)
| PFloat (bits : Z)
| PStr (s : string)
| PList (l : list pyval)
| PDict (m : gmap string pyval).

(** A mapping is a [dict]; every other value is a non-mapping body. *)
Definition is_mapping (v : pyval) : bool :=
  match v with PDict _ => true | _ => false end.

(** The primary key attribute is an [Integer] column that is [None] until the
    store assigns it. *)
Definition of_id (i : option Z) : pyval :=
  match i with None => PNone | Some z => PInt z end.

(** Truth value of [self.id] in [if self.id] / [if not self.id]: [None] and
    [0] are false, every other integer is true. *)
Definition truthy_id (i : option Z) : bool :=
  match i with None => false | Some z => negb (z =? 0)%Z end.

(** ** Exceptions

    [KeyError] and [TypeError] come from subscripting, [DataValidationError]
    is the module's own class.  [DatabaseError] is the one name the model has
    for what a flush lets out when the store refuses a statement: SQLAlchemy's
    [IntegrityError] for a NOT NULL or primary key violation, the driver's
    [OverflowError] for an integer beyond 64 bits; the model does not tell
    them apart.  [InvalidRequestError] is what [session.delete] raises for an
    instance that is not persisted and, through its subclass
    [PendingRollbackError], what every statement raises in a session whose
    flush was refused.  [NoObject] is not a Python exception: it is what the
    model answers when a reference names no object, which Python code cannot
    construct. *)

Inductive exn :=
| KeyError (key : string)
| TypeError
| DataValidationError (msg : string)
| DatabaseError
| InvalidRequestError
| NoObject.

Inductive outcome (A : Type) :=
| Ok (a : A)
| Raise (e : exn).
Arguments Ok {A} a.
Arguments Raise {A} e.

(** ** A state-and-exception monad

    [Py S A] is a computation over a mutable state [S] that returns an [A] or
    raises; the state reached is kept in both cases, as an exception does not
    undo the assignments made before it. *)

Definition Py (S A : Type) : Type := S → outcome A * S.

Definition ret {S A} (a : A) : Py S A := λ s, (Ok a, s).

Definition bind {S A B} (c : Py S A) (k : A → Py S B) : Py S B :=
  λ s, match c s with
       | (Ok a, s') => k a s'
       | (Raise e, s') => (Raise e, s')
       end.

Definition raise {S A} (e : exn) : Py S A := λ s, (Raise e, s).

(** [try: c except ...: h e] *)
Definition try_except {S A} (c : Py S A) (h : exn → Py S A) : Py S A :=
  λ s, match c s with
       | (Ok a, s') => (Ok a, s')
       | (Raise e, s') => h e s'
       end.

Definition modify {S} (f : S → S) : Py S unit := λ s, (Ok tt, f s).
Definition gets {S A} (f : S → A) : Py S A := λ s, (Ok (f s), s).

Declare Scope py_scope.
Delimit Scope py_scope with py.
Notation "x <- c ;; k" := (bind c (λ x, k))
  (at level 100, c at next level, right associativity) : py_scope.
Notation "c ;;; k" := (bind c (λ _, k))
  (at level 100, k at level 200, right associativity) : py_scope.
Open Scope py_scope.

(** [data[key]] for a string key: a dict yields the value or [KeyError key];
    a list or a string wants integer indices and [None], booleans and numbers
    are not subscriptable, all of which is a [TypeError]. *)
Definition getitem {S} (data : pyval) (key : string) : Py S pyval :=
  match data with
  | PDict m =>
      match m !! key with
      | Some v => ret v
      | None => raise (KeyError key)
      end
  | _ => raise TypeError
  end.

(** ** Column declarations

    [db.Column(db.Integer, nullable=...)] and
    [db.Column(db.String(n), nullable=...)]: the values the store takes in
    such a column and keeps as they are.  An integer has to fit the store's
    64-bit signed INTEGER.  The length [n] of a [String(n)] is part of the
    declaration only: the engine stores a longer string as it is.  A value of
    another type (a string in an Integer column, a number in a String column)
    is not followed into the engine's conversions: the model takes its row as
    refused. *)

Definition integer_column (nullable : bool) (v : pyval) : bool :=
  match v with
  | PInt z => bool_decide (- 2 ^ 63 ≤ z < 2 ^ 63)
  | PNone => nullable
  | _ => false
  end.

Definition string_column (n : nat) (nullable : bool) (v : pyval) : bool :=
  match v with
  | PStr _ => true
  | PNone => nullable
  | _ => false
  end.

(** ** Item *)

Module Item.

Record t := mk {
  id : option Z;
  wishlist_id : pyval;
  product_id : pyval;
  name : pyval;
  description : pyval
}.

Definition set_id (v : option Z) (self : t) : t :=
  mk v (wishlist_id self) (product_id self) (name self) (description self).
Definition set_wishlist_id (v : pyval) (self : t) : t :=
  mk (id self) v (product_id self) (name self) (description self).
Definition set_product_id (v : pyval) (self : t) : t :=
  mk (id self) (wishlist_id self) v (name self) (description self).
Definition set_name (v : pyval) (self : t) : t :=
  mk (id self) (wishlist_id self) (product_id self) v (description self).
Definition set_description (v : pyval) (self : t) : t :=
  mk (id self) (wishlist_id self) (product_id self) (name self) v.

(** The declared columns besides the primary key: [wishlist_id],
    [product_id] and [name] are [nullable=False], [description] is not. *)
Definition columns_ok (self : t) : bool :=
  integer_column false (wishlist_id self) &&
  integer_column false (product_id self) &&
  string_column 63 false (name self) &&
  string_column 100 true (description self).

(** A newly constructed [Item()]: every attribute is [None]. *)
Definition new : t := mk None PNone PNone PNone PNone.

Definition serialize (self : t) : pyval :=
  PDict (<["id" := of_id (id self)]>
        (<["wishlist_id" := wishlist_id self]>
        (<["product_id" := product_id self]>
        (<["name" := name self]>
        (<["description" := description self]> ∅))))).

(** The [except] clauses of [deserialize]. *)
Definition on_error (e : exn) : Py t unit :=
  match e with
  | KeyError key => raise (DataValidationError ("Invalid item: missing " +:+ key))
  | TypeError =>
      raise (DataValidationError "Invalid item: body of request contained bad or no data")
  | e => raise e
  end.

(** [deserialize(self, data, wishlist_id)]; the state is [self], which is
    also what the method returns. *)
Definition deserialize (data wishlist_id : pyval) : Py t unit :=
  try_except
    (modify (set_wishlist_id wishlist_id) ;;;
     v <- getitem data "product_id" ;; modify (set_product_id v) ;;;
     v <- getitem data "name" ;; modify (set_name v) ;;;
     v <- getitem data "description" ;; modify (set_description v))
    on_error.

End Item.

(** ** Wishlist *)

Module Wishlist.

Record t := mk {
  id : option Z;
  customer_id : pyval;
  wishlist_name : pyval
}.

Definition set_id (v : option Z) (self : t) : t :=
  mk v (customer_id self) (wishlist_name self).
Definition set_customer_id (v : pyval) (self : t) : t :=
  mk (id self) v (wishlist_name self).
Definition set_wishlist_name (v : pyval) (self : t) : t :=
  mk (id self) (customer_id self) v.

Definition columns_ok (self : t) : bool :=
  integer_column false (customer_id self) &&
  string_column 40 true (wishlist_name self).

(** A newly constructed [Wishlist()]. *)
Definition new : t := mk None PNone PNone.

Definition serialize (self : t) : pyval :=
  PDict (<["id" := of_id (id self)]>
        (<["customer_id" := customer_id self]>
        (<["wishlist_name" := wishlist_name self]> ∅))).

Definition on_error (e : exn) : Py t unit :=
  match e with
  | KeyError key => raise (DataValidationError ("Invalid wishlist: missing " +:+ key))
  | TypeError =>
      raise (DataValidationError "Invalid wishlist: body of request contained bad or no data")
  | e => raise e
  end.

Definition deserialize (data : pyval) : Py t unit :=
  try_except
    (v <- getitem data "customer_id" ;; modify (set_customer_id v) ;;;
     v <- getitem data "wishlist_name" ;; modify (set_wishlist_name v))
    on_error.

End Wishlist.

(** ** The session

    [db = SQLAlchemy()] gives every model class one shared [db.session].  The
    model below is the part of SQLAlchemy's unit of work that [models.py]
    drives: Python instances with identity, the identity map of persistent
    instances keyed by table and primary key, the pending ([new]) and
    [deleted] collections, the rows the current transaction sees, the rows as
    of the last commit, and whether a refused flush has left the transaction
    inactive.  [models.py] names no engine; the store is modelled on SQLite:
    foreign keys are not enforced, and a primary key left to the store is
    one more than the largest in the table.  Which instances a commit
    has expired is not tracked: every instance the session holds is taken as
    expired, as each is after the commit that ends [save] and [delete]. *)

Definition ref := positive.

Inductive table := items | wishlists.

#[global] Instance table_eq_dec : EqDecision table.
Proof. solve_decision. Defined.

#[global] Instance table_countable : Countable table.
Proof.
  refine (inj_countable' (λ t, match t with items => false | wishlists => true end)
                         (λ b : bool, if b then wishlists else items) _).
  by intros [].
Defined.

Inductive entity :=
| AnItem (i : Item.t)
| AWishlist (w : Wishlist.t).

Definition tablename (e : entity) : table :=
  match e with AnItem _ => items | AWishlist _ => wishlists end.

(** [self.id] *)
Definition pk (e : entity) : option Z :=
  match e with AnItem i => Item.id i | AWishlist w => Wishlist.id w end.

Definition set_pk (v : option Z) (e : entity) : entity :=
  match e with
  | AnItem i => AnItem (Item.set_id v i)
  | AWishlist w => AWishlist (Wishlist.set_id v w)
  end.

Definition columns_ok (e : entity) : bool :=
  match e with
  | AnItem i => Item.columns_ok i
  | AWishlist w => Wishlist.columns_ok w
  end.

Abbreviation key := (table * Z)%type.

Record Session := mkSession {
  objects : gmap ref entity;
  identity_map : gmap key ref;
  new : list ref;
  deleted : list ref;
  rows : gmap key entity;
  committed : gmap key entity;
  inactive : bool
}.

Definition empty_session : Session := mkSession ∅ ∅ [] [] ∅ ∅ false.

(** The primary keys in use in a table. *)
Definition table_ids (t : table) (m : gmap key entity) : list Z :=
  omap (λ kv : key * entity, if decide (kv.1.1 = t) then Some kv.1.2 else None)
       (map_to_list m).

(** The primary key the store gives the next row of a table: 1 in an empty
    table, else one more than the largest in use. *)
Definition next_id (s : Session) (t : table) : Z :=
  match table_ids t (rows s) with
  | [] => 1
  | i :: l => foldr Z.max i l + 1
  end.

(** An instance is attached when the identity map holds it. *)
Definition attached (r : ref) (s : Session) : bool :=
  bool_decide (r ∈ (map_to_list (identity_map s)).*2).

(** [ClassName(...)]: a new transient instance. *)
Definition construct (e : entity) : Py Session ref :=
  λ s, let r := fresh (dom (objects s)) in
       (Ok r, mkSession (<[r := e]> (objects s)) (identity_map s) (new s)
                        (deleted s) (rows s) (committed s) (inactive s)).

(** [self.id] read through a reference. *)
Definition getattr_id (self : ref) : Py Session (option Z) :=
  λ s, match objects s !! self with
       | Some e => (Ok (pk e), s)
       | None => (Raise NoObject, s)
       end.

Definition with_new (l : list ref) (s : Session) : Session :=
  mkSession (objects s) (identity_map s) l (deleted s) (rows s) (committed s)
            (inactive s).

Definition with_deleted (l : list ref) (s : Session) : Session :=
  mkSession (objects s) (identity_map s) (new s) l (rows s) (committed s)
            (inactive s).

(** [db.session.add(self)]: a transient instance becomes pending; an
    instance the session already holds stays as it is. *)
Definition session_add (self : ref) : Py Session unit :=
  λ s, if attached self s || bool_decide (self ∈ new s)
       then (Ok tt, s)
       else (Ok tt, with_new (new s ++ [self]) s).

(** [db.session.delete(self)]: a persistent instance is marked for deletion;
    any other instance is refused. *)
Definition session_delete (self : ref) : Py Session unit :=
  λ s, if attached self s
       then if bool_decide (self ∈ deleted s)
            then (Ok tt, s)
            else (Ok tt, with_deleted (self :: deleted s) s)
       else (Raise InvalidRequestError, s).

(** *** Flush

    A flush writes the session's state to the tables: an UPDATE for every
    persistent instance that is not marked for deletion, an INSERT for every
    pending instance, a DELETE for every instance marked for deletion. *)

(** The rows the persistent instances stand for.  The UPDATE is keyed by the
    identity the instance was loaded or inserted under. *)
Definition updates (s : Session) : gmap key entity :=
  map_imap (λ (k : key) (r : ref),
              if bool_decide (r ∈ deleted s) then None
              else set_pk (Some k.2) <$> objects s !! r)
           (identity_map s).

Definition write_updates (s : Session) : Session :=
  mkSession (objects s) (identity_map s) (new s) (deleted s)
            (updates s ∪ rows s) (committed s) (inactive s).

Definition flush_updates (s : Session) : option Session :=
  if bool_decide (map_Forall (λ _ e, columns_ok e = true) (updates s))
  then Some (write_updates s)
  else None.

(** INSERT of a pending instance: a [None] primary key is given by the
    store, a given one is used as it is and must be free.  The instance
    receives its key and enters the identity map. *)
Definition register (r : ref) (e : entity) (k : key) (s : Session) : Session :=
  mkSession (<[r := e]> (objects s)) (<[k := r]> (identity_map s))
            (new s) (deleted s) (<[k := e]> (rows s))
            (committed s) (inactive s).

Definition insert_row (r : ref) (s : Session) : option Session :=
  match objects s !! r with
  | None => None
  | Some e =>
      if columns_ok e then
        let t := tablename e in
        let i := default (next_id s t) (pk e) in
        match rows s !! (t, i) with
        | Some _ => None
        | None => Some (register r (set_pk (Some i) e) (t, i) s)
        end
      else None
  end.

Fixpoint flush_inserts (pending : list ref) (s : Session) : option Session :=
  match pending with
  | [] => Some s
  | r :: pending =>
      match insert_row r s with
      | Some s' => flush_inserts pending s'
      | None => None
      end
  end.

(** DELETE of an instance marked for deletion; the instance leaves the
    identity map and stays in memory. *)
Definition unregister (k : key) (s : Session) : Session :=
  mkSession (objects s) (delete k (identity_map s)) (new s) (deleted s)
            (delete k (rows s)) (committed s) (inactive s).

Definition delete_row (r : ref) (s : Session) : Session :=
  match objects s !! r with
  | Some e =>
      match pk e with
      | Some i => unregister (tablename e, i) s
      | None => s
      end
  | None => s
  end.

Definition flush_deletes (s : Session) : Session :=
  foldr delete_row s (deleted s).

Definition flushed (s : Session) : Session :=
  mkSession (objects s) (identity_map s) [] [] (rows s) (committed s)
            (inactive s).

Definition with_inactive (s : Session) : Session :=
  mkSession (objects s) (identity_map s) (new s) (deleted s) (rows s)
            (committed s) true.

(** A refused statement raises and leaves the transaction inactive: until a
    rollback, which [models.py] never calls, every further flush raises.
    The instances and collections stay as they were before the flush. *)
Definition flush : Py Session unit :=
  λ s, if inactive s then (Raise InvalidRequestError, s)
       else match flush_updates s ≫= flush_inserts (new s) with
            | Some s' => (Ok tt, flushed (flush_deletes s'))
            | None => (Raise DatabaseError, with_inactive s)
            end.

(** [db.session.commit()]: flush, then make the transaction's rows the
    committed ones. *)
Definition commit_rows (s : Session) : Session :=
  mkSession (objects s) (identity_map s) (new s) (deleted s) (rows s)
            (rows s) (inactive s).

Definition commit : Py Session unit :=
  flush ;;; modify commit_rows.

(** *** Queries *)

(** The instance for a row: the one the identity map holds for that key, or
    else a new instance built from the row. *)
Definition load (k : key) : Py Session (option ref) :=
  λ s, match identity_map s !! k with
       | Some r => (Ok (Some r), s)
       | None =>
           match rows s !! k with
           | Some e =>
               let r := fresh (dom (objects s)) in
               (Ok (Some r),
                mkSession (<[r := e]> (objects s)) (<[k := r]> (identity_map s))
                          (new s) (deleted s) (rows s) (committed s)
                          (inactive s))
           | None => (Ok None, s)
           end
       end.

(** [cls.query.get(ident)]: the instance the identity map holds is
    refreshed from its row, an instance it does not hold is selected; both
    are statements, with the automatic flush before them. *)
Definition query_get (t : table) (ident : Z) : Py Session (option ref) :=
  flush ;;; load (t, ident).

(** [cls.query.filter(criterion)]: a description of a query, evaluated only
    when its results are asked for. *)
Record Query := mkQuery {
  q_table : table;
  q_criterion : entity → bool
}.

(** The keys of the rows a query selects. *)
Definition select (q : Query) (s : Session) : list key :=
  (map_to_list
     (filter (λ kv : key * entity, kv.1.1 = q_table q ∧ q_criterion q kv.2 = true)
             (rows s))).*1.

Fixpoint load_all (ks : list key) : Py Session (list ref) :=
  match ks with
  | [] => ret []
  | k :: ks =>
      o <- load k ;;
      rs <- load_all ks ;;
      ret (match o with Some r => r :: rs | None => rs end)
  end.

(** Evaluating a query ([.all()], or iterating over it): the automatic
    flush, the SELECT, and one instance per selected row. *)
Definition query_all (q : Query) : Py Session (list ref) :=
  flush ;;;
  ks <- gets (select q) ;;
  load_all ks.

(** ** The model methods

    [Item] and [Wishlist], both subclasses of [db.Model], define [save],
    [delete] and [get] with the same bodies; [self], or the table of the
    class for the static [get], tells the class. *)

Module Model.

(** [save(self)]: "Saves an Item to the database". *)
Definition save (self : ref) : Py Session unit :=
  i <- getattr_id self ;;
  (if negb (truthy_id i) then session_add self else ret tt) ;;;
  commit.

(** [delete(self)]: "Deletes an Item from the database". *)
Definition delete (self : ref) : Py Session unit :=
  i <- getattr_id self ;;
  (if truthy_id i then session_delete self else ret tt) ;;;
  commit.

(** [Item.get(item_id)] and [Wishlist.get(wishlist_id)] *)
Definition get (t : table) (ident : Z) : Py Session (option ref) :=
  query_get t ident.

(** [Item.all()] and [Wishlist.all()]: [cls.query.all()], the query without
    a criterion, evaluated. *)
Definition all (t : table) : Py Session (list ref) :=
  query_all (mkQuery t (λ _, true)).

End Model.

(** [Wishlist.customer_id == customer_id] as the WHERE clause sees it. *)
Definition customer_id_eq (customer_id : Z) (e : entity) : bool :=
  match e with
  | AWishlist w =>
      match Wishlist.customer_id w with
      | PInt z => (z =? customer_id)%Z
      | _ => false
      end
  | AnItem _ => false
  end.

(** [Wishlist.find_by_customer_id(customer_id)], with [customer_id] an
    integer as the docstring has it. *)
Definition find_by_customer_id (customer_id : Z) : Query :=
  mkQuery wishlists (customer_id_eq customer_id).

(** [Item.name == name] as the WHERE clause sees it. *)
Definition name_eq (name : string) (e : entity) : bool :=
  match e with
  | AnItem i =>
      match Item.name i with
      | PStr s => bool_decide (s = name)
      | _ => false
      end
  | AWishlist _ => false
  end.

(** [Item.find_by_name(name)], with [name] a string as the docstring has
    it. *)
Definition find_by_name (name : string) : Query :=
  mkQuery items (name_eq name).

(** [abort(404)] inside [get_or_404]: the not-found condition handed to the
    transport layer.  It is kept apart from [exn], as the result of the
    method. *)
Inductive http_error := NotFound.

(** [Wishlist.get_or_404(wishlist_id)]: [Wishlist.query.get_or_404], that
    is [get] and the abort when it has nothing. *)
Definition get_or_404 (wishlist_id : Z) : Py Session (http_error + ref) :=
  o <- query_get wishlists wishlist_id ;;
  ret (match o with Some r => inr r | None => inl NotFound end).

(** A method call on the instance behind a reference: the method runs on the
    instance's attributes and its assignments stay, also when it raises. *)
Definition on_wishlist {A} (self : ref) (method : Py Wishlist.t A) : Py Session A :=
  λ s, match objects s !! self with
       | Some (AWishlist w) =>
           let '(o, w') := method w in
           (o, mkSession (<[self := AWishlist w']> (objects s)) (identity_map s)
                         (new s) (deleted s) (rows s) (committed s) (inactive s))
       | _ => (Raise NoObject, s)
       end.

Definition on_item {A} (self : ref) (method : Py Item.t A) : Py Session A :=
  λ s, match objects s !! self with
       | Some (AnItem i) =>
           let '(o, i') := method i in
           (o, mkSession (<[self := AnItem i']> (objects s)) (identity_map s)
                         (new s) (deleted s) (rows s) (committed s) (inactive s))
       | _ => (Raise NoObject, s)
       end.

(** ** Scenarios

    Small programs over the model methods, run from the empty session. *)

(** One Wishlist saved: it gets id 1. *)
Definition one_saved : Py Session ref :=
  a <- construct (AWishlist (Wishlist.mk None (PInt 5) (PStr "gifts"))) ;;
  Model.save a ;;;
  ret a.

(** [Wishlist(id=1, customer_id=99, ...)] built while row 1 belongs to
    another instance. *)
Definition saved_then_copied : Py Session ref :=
  one_saved ;;;
  construct (AWishlist (Wishlist.mk (Some 1) (PInt 99) (PStr "copy"))).

(** [Wishlist(id=0, customer_id=5)] saved. *)
Definition zero_id_saved : Py Session ref :=
  a <- construct (AWishlist (Wishlist.mk (Some 0) (PInt 5) PNone)) ;;
  Model.save a ;;;
  ret a.

(** Two Wishlists of customer 5 and one of customer 9 saved. *)
Definition three_saved : Py Session (list ref) :=
  a <- construct (AWishlist (Wishlist.mk None (PInt 5) (PStr "a"))) ;;
  b <- construct (AWishlist (Wishlist.mk None (PInt 9) PNone)) ;;
  c <- construct (AWishlist (Wishlist.mk None (PInt 5) (PStr "c"))) ;;
  Model.save a ;;; Model.save b ;;; Model.save c ;;;
  ret [a; b; c].

(** Two Wishlists saved, the second deleted, a third saved. *)
Definition saved_deleted_saved : Py Session (list ref) :=
  a <- construct (AWishlist (Wishlist.mk None (PInt 5) (PStr "a"))) ;;
  b <- construct (AWishlist (Wishlist.mk None (PInt 5) (PStr "b"))) ;;
  Model.save a ;;; Model.save b ;;; Model.delete b ;;;
  c <- construct (AWishlist (Wishlist.mk None (PInt 5) (PStr "c"))) ;;
  Model.save c ;;;
  ret [a; b; c].

(** A Wishlist without [customer_id] saved, the error caught, then a valid
    Wishlist saved in the same session. *)
Definition refused_then_saved : Py Session ref :=
  a <- construct (AWishlist Wishlist.new) ;;
  try_except (Model.save a) (λ _, ret tt) ;;;
  b <- construct (AWishlist (Wishlist.mk None (PInt 5) (PStr "gifts"))) ;;
  Model.save b ;;;
  ret b.



(** The instance behind [self] replaced by [e], as an attribute assignment
    leaves the session. *)
Definition with_object (self : ref) (e : entity) (s : Session) : Session :=
  mkSession (<[self := e]> (objects s)) (identity_map s) (new s) (deleted s)
            (rows s) (committed s) (inactive s).

(** A new session over the same store, as the next request has it: no
    instance in memory, the rows as committed. *)
Definition next_request (s : Session) : Session :=
  mkSession ∅ ∅ [] [] (committed s) (committed s) false.

(** A Wishlist saved, then an Item of it saved. *)
Definition wishlist_and_item_saved : Py Session (ref * ref) :=
  w <- construct (AWishlist (Wishlist.mk None (PInt 5) (PStr "gifts"))) ;;
  Model.save w ;;;
  i <- construct (AnItem (Item.mk None (PInt 1) (PInt 30) (PStr "mug") PNone)) ;;
  Model.save i ;;;
  ret (w, i).

(** ** Session invariants *)

(** The structure the model methods keep when they return: a persistent
    instance carries the table and key it is registered under and has a row;
    a row carries its own key, which is not negative, and holds values its
    columns take. *)
Record session_wf (s : Session) : Prop := {
  wf_identity : ∀ k r, identity_map s !! k = Some r →
    ∃ e, objects s !! r = Some e ∧ tablename e = k.1 ∧ pk e = Some k.2;
  wf_persistent : ∀ k, is_Some (identity_map s !! k) → is_Some (rows s !! k);
  wf_rows : ∀ k e, rows s !! k = Some e →
    tablename e = k.1 ∧ pk e = Some k.2 ∧ columns_ok e = true;
  wf_ids : ∀ k, is_Some (rows s !! k) → 0 ≤ k.2
}.

(** The invariants as checks that can be run on a given session. *)
Definition session_wf_b (s : Session) : bool :=
  bool_decide (map_Forall (λ (k : key) (r : ref),
     match objects s !! r with
     | Some e => bool_decide (tablename e = k.1 ∧ pk e = Some k.2)
     | None => false
     end = true) (identity_map s))
  && bool_decide (map_Forall (λ (k : key) (_ : ref), is_Some (rows s !! k))
                             (identity_map s))
  && bool_decide (map_Forall (λ (k : key) (e : entity),
       tablename e = k.1 ∧ pk e = Some k.2 ∧ columns_ok e = true) (rows s))
  && bool_decide (map_Forall (λ (k : key) (_ : entity), 0 ≤ k.2) (rows s)).

Definition flushable_b (s : Session) : bool :=
  bool_decide (map_Forall (λ (_ : key) (r : ref),
     match objects s !! r with
     | Some e => columns_ok e
     | None => true
     end = true) (identity_map s)).

(** Between two model methods nothing is pending, each ending with a commit,
    and no flush has been refused. *)
Definition quiescent (s : Session) : Prop :=
  new s = [] ∧ deleted s = [] ∧ inactive s = false.

(** Every persistent instance holds values its columns accept, so that a
    flush can write them. *)
Definition flushable (s : Session) : Prop :=
  ∀ k r e, identity_map s !! k = Some r → objects s !! r = Some e →
           columns_ok e = true.

(** No persistent instance differs from its row. *)
Definition synced (s : Session) : Prop :=
  ∀ k r, identity_map s !! k = Some r → objects s !! r = rows s !! k.

(** Nothing is unflushed and nothing is uncommitted. *)
Definition clean (s : Session) : Prop :=
  synced s ∧ rows s = committed s.

(** The identity map does not hold [self]: a transient instance, or one
    whose row was deleted. *)
Definition unattached (self : ref) (s : Session) : Prop :=
  ∀ k, identity_map s !! k ≠ Some self.

(** [self] is persisted under primary key [i] of table [t]. *)
Definition persisted (self : ref) (t : table) (i : Z) (s : Session) : Prop :=
  identity_map s !! (t, i) = Some self.

(** The only exception [deserialize] lets out is [DataValidationError]. *)
Definition validation_outcome {A} (o : outcome A) : Prop :=
  match o with
  | Ok _ => True
  | Raise (DataValidationError _) => True
  | Raise _ => False
  end.

(** * Properties *)

(** ** Serialization *)

Lemma wishlist_deserialize_serialize (w self : Wishlist.t) :
  Wishlist.deserialize (Wishlist.serialize w) self
  = (Ok tt, Wishlist.mk (Wishlist.id self) (Wishlist.customer_id w)
                        (Wishlist.wishlist_name w)).
Proof. reflexivity. Qed.

Lemma item_deserialize_serialize (i self : Item.t) (wid : pyval) :
  Item.deserialize (Item.serialize i) wid self
  = (Ok tt, Item.mk (Item.id self) wid (Item.product_id i) (Item.name i)
                    (Item.description i)).
Proof. reflexivity. Qed.

(** What [deserialize] does on any body, case by case. *)
Lemma wishlist_deserialize_cases (data : pyval) (self : Wishlist.t) :
  Wishlist.deserialize data self =
  match data with
  | PDict m =>
      match m !! "customer_id" with
      | None =>
          (Raise (DataValidationError "Invalid wishlist: missing customer_id"), self)
      | Some c =>
          match m !! "wishlist_name" with
          | None =>
              (Raise (DataValidationError "Invalid wishlist: missing wishlist_name"),
               Wishlist.set_customer_id c self)
          | Some n =>
              (Ok tt, Wishlist.set_wishlist_name n (Wishlist.set_customer_id c self))
          end
      end
  | _ =>
      (Raise (DataValidationError
                "Invalid wishlist: body of request contained bad or no data"), self)
  end.
Proof.
  destruct data as [| | | | | |m]; try reflexivity.
  unfold Wishlist.deserialize, try_except, bind, getitem.
  destruct (m !! "customer_id") as [c|]; [|reflexivity].
  cbn. destruct (m !! "wishlist_name") as [n|]; reflexivity.
Qed.

Lemma item_deserialize_cases (data wid : pyval) (self : Item.t) :
  Item.deserialize data wid self =
  let self1 := Item.set_wishlist_id wid self in
  match data with
  | PDict m =>
      match m !! "product_id" with
      | None => (Raise (DataValidationError "Invalid item: missing product_id"), self1)
      | Some p =>
          let self2 := Item.set_product_id p self1 in
          match m !! "name" with
          | None => (Raise (DataValidationError "Invalid item: missing name"), self2)
          | Some n =>
              let self3 := Item.set_name n self2 in
              match m !! "description" with
              | None =>
                  (Raise (DataValidationError "Invalid item: missing description"),
                   self3)
              | Some d => (Ok tt, Item.set_description d self3)
              end
          end
      end
  | _ =>
      (Raise (DataValidationError
                "Invalid item: body of request contained bad or no data"), self1)
  end.
Proof.
  destruct data as [| | | | | |m]; try reflexivity.
  unfold Item.deserialize, try_except, bind, getitem, modify.
  destruct (m !! "product_id") as [p|]; [|reflexivity].
  cbn. destruct (m !! "name") as [n|]; [|reflexivity].
  cbn. destruct (m !! "description") as [d|]; reflexivity.
Qed.

(** C1: deserializing what [serialize] produced succeeds and gives the
    receiving instance the data fields of the serialized entity:
    [customer_id] and [wishlist_name] for a Wishlist; [wishlist_id] (passed
    as the argument), [product_id], [name] and [description] for an Item. *)
Theorem deserialize_serialize_data_fields :
  (∀ w self : Wishlist.t, ∃ self',
      Wishlist.deserialize (Wishlist.serialize w) self = (Ok tt, self') ∧
      Wishlist.customer_id self' = Wishlist.customer_id w ∧
      Wishlist.wishlist_name self' = Wishlist.wishlist_name w) ∧
  (∀ i self : Item.t, ∃ self',
      Item.deserialize (Item.serialize i) (Item.wishlist_id i) self = (Ok tt, self') ∧
      Item.wishlist_id self' = Item.wishlist_id i ∧
      Item.product_id self' = Item.product_id i ∧
      Item.name self' = Item.name i ∧
      Item.description self' = Item.description i).
Proof.
  split.
  - intros w self. eexists. rewrite wishlist_deserialize_serialize. done.
  - intros i self. eexists. rewrite item_deserialize_serialize. done.
Qed.

(** C2, as stated, fails: a Wishlist with id 7 serialized and deserialized
    into a new instance gives an instance whose id is [None]. *)
Lemma roundtrip_id_counterexample :
  let x := Wishlist.mk (Some 7) (PInt 5) (PStr "gifts") in
  Wishlist.id (Wishlist.deserialize (Wishlist.serialize x) Wishlist.new).2 = None ∧
  Wishlist.id (Wishlist.deserialize (Wishlist.serialize x) Wishlist.new).2
    ≠ Wishlist.id x.
Proof. split; [reflexivity | discriminate]. Qed.

(** C2, amended: the round trip is the identity on the data fields that
    [serialize] exposes, and leaves the id of the receiving instance as it
    was, whatever id was serialized. *)
Theorem deserialize_serialize_keeps_receiver_id :
  (∀ x self : Wishlist.t,
      Wishlist.deserialize (Wishlist.serialize x) self
      = (Ok tt, Wishlist.set_id (Wishlist.id self) x)) ∧
  (∀ x self : Item.t,
      Item.deserialize (Item.serialize x) (Item.wishlist_id x) self
      = (Ok tt, Item.set_id (Item.id self) x)).
Proof. split; intros x self; reflexivity. Qed.

(** C3: a mapping that lacks a required key makes [deserialize] raise
    [DataValidationError] with the message that names a missing key. *)
Theorem deserialize_missing_key :
  (∀ (m : gmap string pyval) (self : Wishlist.t),
      m !! "customer_id" = None ∨ m !! "wishlist_name" = None →
      ∃ k self', k ∈ ["customer_id"; "wishlist_name"] ∧ m !! k = None ∧
        Wishlist.deserialize (PDict m) self
        = (Raise (DataValidationError ("Invalid wishlist: missing " +:+ k)), self')) ∧
  (∀ (m : gmap string pyval) (wid : pyval) (self : Item.t),
      m !! "product_id" = None ∨ m !! "name" = None ∨ m !! "description" = None →
      ∃ k self', k ∈ ["product_id"; "name"; "description"] ∧ m !! k = None ∧
        Item.deserialize (PDict m) wid self
        = (Raise (DataValidationError ("Invalid item: missing " +:+ k)), self')).
Proof.
  split.
  - intros m self H. rewrite wishlist_deserialize_cases.
    destruct (m !! "customer_id") as [c|] eqn:Hc.
    + destruct H as [H|H]; [done|]. rewrite H.
      exists "wishlist_name". eexists. repeat split; [by repeat constructor | done].
    + exists "customer_id". eexists. repeat split; [by repeat constructor | done].
  - intros m wid self H. rewrite item_deserialize_cases. cbn zeta.
    destruct (m !! "product_id") as [p|] eqn:Hp;
      [|exists "product_id"; eexists; repeat split; [by repeat constructor | done]].
    destruct (m !! "name") as [n|] eqn:Hn;
      [|exists "name"; eexists; repeat split; [by repeat constructor | done]].
    destruct H as [H|[H|H]]; [done..|]. rewrite H.
    exists "description". eexists. repeat split; [by repeat constructor | done].
Qed.

Lemma deserialize_missing_key_witness :
  (∃ k self', k ∈ ["customer_id"; "wishlist_name"] ∧
      (<["customer_id" := PInt 5]> ∅ : gmap string pyval) !! k = None ∧
      Wishlist.deserialize (PDict (<["customer_id" := PInt 5]> ∅)) Wishlist.new
      = (Raise (DataValidationError ("Invalid wishlist: missing " +:+ k)), self')) ∧
  (∃ k self', k ∈ ["product_id"; "name"; "description"] ∧
      (<["name" := PStr "mug"]> ∅ : gmap string pyval) !! k = None ∧
      Item.deserialize (PDict (<["name" := PStr "mug"]> ∅)) (PInt 1) Item.new
      = (Raise (DataValidationError ("Invalid item: missing " +:+ k)), self')).
Proof.
  split.
  - apply (proj1 deserialize_missing_key). right. reflexivity.
  - apply (proj2 deserialize_missing_key). left. reflexivity.
Defined.

(** C4: a body that is not a mapping makes both [deserialize] methods raise
    [DataValidationError] with the "bad or no data" message, and whatever the
    body, [deserialize] returns or raises [DataValidationError]. *)
Theorem deserialize_non_mapping :
  (∀ (data : pyval) (self : Wishlist.t), is_mapping data = false →
      (Wishlist.deserialize data self).1
      = Raise (DataValidationError
                 "Invalid wishlist: body of request contained bad or no data")) ∧
  (∀ (data wid : pyval) (self : Item.t), is_mapping data = false →
      (Item.deserialize data wid self).1
      = Raise (DataValidationError
                 "Invalid item: body of request contained bad or no data")) ∧
  (∀ (data : pyval) (self : Wishlist.t),
      validation_outcome (Wishlist.deserialize data self).1) ∧
  (∀ (data wid : pyval) (self : Item.t),
      validation_outcome (Item.deserialize data wid self).1).
Proof.
  repeat split.
  - intros data self H. rewrite wishlist_deserialize_cases.
    by destruct data.
  - intros data wid self H. rewrite item_deserialize_cases.
    by destruct data.
  - intros data self. rewrite wishlist_deserialize_cases.
    destruct data as [| | | | | |m]; try exact I.
    destruct (m !! "customer_id"); [|exact I].
    destruct (m !! "wishlist_name"); exact I.
  - intros data wid self. rewrite item_deserialize_cases.
    destruct data as [| | | | | |m]; try exact I. cbn zeta.
    destruct (m !! "product_id"); [|exact I].
    destruct (m !! "name"); [|exact I].
    destruct (m !! "description"); exact I.
Qed.

Lemma deserialize_non_mapping_witness :
  (Wishlist.deserialize (PList [PInt 1; PInt 2]) Wishlist.new).1
  = Raise (DataValidationError
             "Invalid wishlist: body of request contained bad or no data") ∧
  (Item.deserialize PNone (PInt 3) Item.new).1
  = Raise (DataValidationError
             "Invalid item: body of request contained bad or no data").
Proof.
  split.
  - apply (proj1 deserialize_non_mapping). reflexivity.
  - apply (proj1 (proj2 deserialize_non_mapping)). reflexivity.
Defined.

(** C9: [deserialize] leaves the id of the instance as it was, whether it
    returns or raises; an ["id"] entry of the body changes nothing; and the
    id the instance has plays no part in what [deserialize] does. *)
Theorem deserialize_preserves_id :
  (∀ (data : pyval) (self : Wishlist.t),
      Wishlist.id (Wishlist.deserialize data self).2 = Wishlist.id self) ∧
  (∀ (data wid : pyval) (self : Item.t),
      Item.id (Item.deserialize data wid self).2 = Item.id self) ∧
  (∀ (m : gmap string pyval) (v : pyval) (self : Wishlist.t),
      Wishlist.deserialize (PDict (<["id" := v]> m)) self
      = Wishlist.deserialize (PDict m) self) ∧
  (∀ (m : gmap string pyval) (v wid : pyval) (self : Item.t),
      Item.deserialize (PDict (<["id" := v]> m)) wid self
      = Item.deserialize (PDict m) wid self) ∧
  (∀ (data : pyval) (i : option Z) (self : Wishlist.t),
      Wishlist.deserialize data (Wishlist.set_id i self)
      = ((Wishlist.deserialize data self).1,
         Wishlist.set_id i (Wishlist.deserialize data self).2)) ∧
  (∀ (data wid : pyval) (i : option Z) (self : Item.t),
      Item.deserialize data wid (Item.set_id i self)
      = ((Item.deserialize data wid self).1,
         Item.set_id i (Item.deserialize data wid self).2)).
Proof.
  repeat split.
  - intros data self. rewrite wishlist_deserialize_cases.
    destruct data as [| | | | | |m]; try reflexivity.
    destruct (m !! "customer_id"); [|reflexivity].
    destruct (m !! "wishlist_name"); reflexivity.
  - intros data wid self. rewrite item_deserialize_cases. cbn zeta.
    destruct data as [| | | | | |m]; try reflexivity.
    destruct (m !! "product_id"); [|reflexivity].
    destruct (m !! "name"); [|reflexivity].
    destruct (m !! "description"); reflexivity.
  - intros m v self. rewrite !wishlist_deserialize_cases.
    by rewrite !lookup_insert_ne.
  - intros m v wid self. rewrite !item_deserialize_cases.
    by rewrite !lookup_insert_ne.
  - intros data i self. rewrite !wishlist_deserialize_cases.
    destruct data as [| | | | | |m]; try reflexivity.
    destruct (m !! "customer_id"); [|reflexivity].
    destruct (m !! "wishlist_name"); reflexivity.
  - intros data wid i self. rewrite !item_deserialize_cases. cbn zeta.
    destruct data as [| | | | | |m]; try reflexivity.
    destruct (m !! "product_id"); [|reflexivity].
    destruct (m !! "name"); [|reflexivity].
    destruct (m !! "description"); reflexivity.
Qed.

(** C10: [deserialize] assigns field by field and keeps what it assigned
    when it raises.  [Item.deserialize] has stored the [wishlist_id] argument
    whatever the outcome; when a key is missing, the fields read before it
    hold the values of the body and the later ones are untouched. *)
Theorem deserialize_not_atomic :
  (∀ (data wid : pyval) (self : Item.t),
      Item.wishlist_id (Item.deserialize data wid self).2 = wid) ∧
  (∀ (m : gmap string pyval) (c : pyval) (self : Wishlist.t),
      m !! "customer_id" = Some c → m !! "wishlist_name" = None →
      Wishlist.deserialize (PDict m) self
      = (Raise (DataValidationError "Invalid wishlist: missing wishlist_name"),
         Wishlist.set_customer_id c self)) ∧
  (∀ (m : gmap string pyval) (wid : pyval) (self : Item.t),
      m !! "product_id" = None →
      Item.deserialize (PDict m) wid self
      = (Raise (DataValidationError "Invalid item: missing product_id"),
         Item.set_wishlist_id wid self)) ∧
  (∀ (m : gmap string pyval) (wid p : pyval) (self : Item.t),
      m !! "product_id" = Some p → m !! "name" = None →
      Item.deserialize (PDict m) wid self
      = (Raise (DataValidationError "Invalid item: missing name"),
         Item.set_product_id p (Item.set_wishlist_id wid self))) ∧
  (∀ (m : gmap string pyval) (wid p n : pyval) (self : Item.t),
      m !! "product_id" = Some p → m !! "name" = Some n →
      m !! "description" = None →
      Item.deserialize (PDict m) wid self
      = (Raise (DataValidationError "Invalid item: missing description"),
         Item.set_name n (Item.set_product_id p (Item.set_wishlist_id wid self)))).
Proof.
  repeat split.
  - intros data wid self. rewrite item_deserialize_cases. cbn zeta.
    destruct data as [| | | | | |m]; try reflexivity.
    destruct (m !! "product_id"); [|reflexivity].
    destruct (m !! "name"); [|reflexivity].
    destruct (m !! "description"); reflexivity.
  - intros m c self Hc Hn. by rewrite wishlist_deserialize_cases, Hc, Hn.
  - intros m wid self Hp. by rewrite item_deserialize_cases, Hp.
  - intros m wid p self Hp Hn. by rewrite item_deserialize_cases, Hp, Hn.
  - intros m wid p n self Hp Hn Hd. by rewrite item_deserialize_cases, Hp, Hn, Hd.
Qed.

Lemma deserialize_not_atomic_witness :
  Wishlist.deserialize (PDict (<["customer_id" := PInt 5]> ∅))
                       (Wishlist.mk (Some 2) (PInt 1) (PStr "old"))
  = (Raise (DataValidationError "Invalid wishlist: missing wishlist_name"),
     Wishlist.mk (Some 2) (PInt 5) (PStr "old")) ∧
  Item.deserialize (PDict (<["name" := PStr "mug"]> ∅)) (PInt 8)
                   (Item.mk None (PInt 1) (PInt 2) (PStr "cup") PNone)
  = (Raise (DataValidationError "Invalid item: missing product_id"),
     Item.mk None (PInt 8) (PInt 2) (PStr "cup") PNone) ∧
  Item.deserialize (PDict (<["product_id" := PInt 4]> ∅)) (PInt 8) Item.new
  = (Raise (DataValidationError "Invalid item: missing name"),
     Item.mk None (PInt 8) (PInt 4) PNone PNone) ∧
  Item.deserialize (PDict (<["product_id" := PInt 4]> (<["name" := PStr "mug"]> ∅)))
                   (PInt 8) Item.new
  = (Raise (DataValidationError "Invalid item: missing description"),
     Item.mk None (PInt 8) (PInt 4) (PStr "mug") PNone).
Proof.
  destruct deserialize_not_atomic as (_ & HW & HI1 & HI2 & HI3).
  split; [|split; [|split]].
  - apply (HW _ (PInt 5)); reflexivity.
  - apply HI1; reflexivity.
  - apply (HI2 _ _ (PInt 4)); reflexivity.
  - apply (HI3 _ _ (PInt 4) (PStr "mug")); reflexivity.
Defined.

(** ** The session: basic facts *)

Lemma set_pk_same (e : entity) (i : Z) : pk e = Some i → set_pk (Some i) e = e.
Proof. destruct e as [[]|[]]; cbn; by intros ->. Qed.

Lemma pk_set_pk (e : entity) (v : option Z) : pk (set_pk v e) = v.
Proof. by destruct e. Qed.

Lemma tablename_set_pk (e : entity) (v : option Z) :
  tablename (set_pk v e) = tablename e.
Proof. by destruct e. Qed.

Lemma columns_ok_set_pk (e : entity) (v : option Z) :
  columns_ok (set_pk v e) = columns_ok e.
Proof. by destruct e. Qed.

Lemma attached_true (r : ref) (s : Session) :
  attached r s = true ↔ ∃ k, identity_map s !! k = Some r.
Proof.
  unfold attached. rewrite bool_decide_eq_true, list_elem_of_fmap. split.
  - intros [[k r'] [-> Hin]]. exists k. by apply elem_of_map_to_list in Hin.
  - intros [k Hk]. exists (k, r). split; [done|]. by apply elem_of_map_to_list.
Qed.

Lemma attached_false (r : ref) (s : Session) :
  attached r s = false ↔ ∀ k, identity_map s !! k ≠ Some r.
Proof.
  rewrite <-not_true_iff_false, attached_true. split.
  - intros H k Hk. apply H. by exists k.
  - intros H [k Hk]. by apply (H k).
Qed.

Lemma updates_lookup (s : Session) (k : key) :
  updates s !! k =
  match identity_map s !! k with
  | Some r => if bool_decide (r ∈ deleted s) then None
              else set_pk (Some k.2) <$> objects s !! r
  | None => None
  end.
Proof. unfold updates. rewrite map_lookup_imap. by destruct (identity_map s !! k). Qed.

(** In a well-formed session the UPDATE of a persistent instance writes the
    instance as it is. *)
Lemma updates_lookup_wf (s : Session) (k : key) (r : ref) :
  session_wf s → identity_map s !! k = Some r → r ∉ deleted s →
  updates s !! k = objects s !! r.
Proof.
  intros Hwf Hk Hd. rewrite updates_lookup, Hk, bool_decide_eq_false_2 by done.
  destruct (wf_identity s Hwf k r Hk) as (e & -> & _ & Hpk). cbn.
  by rewrite set_pk_same.
Qed.

Lemma updates_lookup_None (s : Session) (k : key) :
  identity_map s !! k = None → updates s !! k = None.
Proof. intros H. by rewrite updates_lookup, H. Qed.

(** *** The key the store gives *)

Lemma table_ids_elem (t : table) (m : gmap key entity) (i : Z) :
  i ∈ table_ids t m ↔ is_Some (m !! (t, i)).
Proof.
  unfold table_ids. rewrite list_elem_of_omap. split.
  - intros ([[t' i'] e] & Hin%elem_of_map_to_list & H). cbn in H.
    case_decide as Ht; [|done]. injection H as <-. subst t'. by eauto.
  - intros [e He]. exists ((t, i), e). split; [by apply elem_of_map_to_list|].
    cbn. by rewrite decide_True.
Qed.

Lemma foldr_max_ge (i0 : Z) (l : list Z) (i : Z) :
  i ∈ i0 :: l → i ≤ foldr Z.max i0 l.
Proof.
  induction l as [|j l IH]; cbn.
  - intros Hin%list_elem_of_singleton. lia.
  - intros Hin. apply elem_of_cons in Hin as [Heq|Hin].
    + assert (i ≤ foldr Z.max i0 l) by (apply IH, elem_of_cons; by left). lia.
    + apply elem_of_cons in Hin as [Heq|Hin]; [lia|].
      assert (i ≤ foldr Z.max i0 l) by (apply IH, elem_of_cons; by right). lia.
Qed.

Lemma foldr_max_in (i0 : Z) (l : list Z) : foldr Z.max i0 l ∈ i0 :: l.
Proof.
  induction l as [|j l IH]; cbn; [apply elem_of_cons; by left|].
  destruct (Z.max_spec j (foldr Z.max i0 l)) as [[_ ->]|[_ ->]].
  - apply elem_of_cons in IH as [Heq|Hin]; apply elem_of_cons; [by left|].
    right. apply elem_of_cons. by right.
  - apply elem_of_cons. right. apply elem_of_cons. by left.
Qed.

(** Every key in use lies below the next one. *)
Lemma next_id_above (s : Session) (t : table) (i : Z) :
  is_Some (rows s !! (t, i)) → i < next_id s t.
Proof.
  intros Hi%table_ids_elem. unfold next_id.
  destruct (table_ids t (rows s)) as [|i0 l]; [by apply elem_of_nil in Hi|].
  apply foldr_max_ge in Hi. lia.
Qed.

(** The next key is 1 in an empty table and follows a key in use
    otherwise. *)
Lemma next_id_spec (s : Session) (t : table) :
  is_Some (rows s !! (t, next_id s t - 1)) ∨
  (next_id s t = 1 ∧ ∀ i, rows s !! (t, i) = None).
Proof.
  unfold next_id. destruct (table_ids t (rows s)) as [|i0 l] eqn:Hl.
  - right. split; [done|]. intros i. apply eq_None_not_Some.
    intros Hi%table_ids_elem. rewrite Hl in Hi. by apply elem_of_nil in Hi.
  - left. apply table_ids_elem. rewrite Hl.
    replace (foldr Z.max i0 l + 1 - 1) with (foldr Z.max i0 l) by lia.
    apply foldr_max_in.
Qed.

Lemma next_id_unique (s : Session) (t : table) (n : Z) :
  (∀ i, is_Some (rows s !! (t, i)) → i < n) →
  is_Some (rows s !! (t, n - 1)) ∨ (n = 1 ∧ ∀ i, rows s !! (t, i) = None) →
  next_id s t = n.
Proof.
  intros Hup Hn. destruct (next_id_spec s t) as [Hs|[Hs Hnone]].
  - pose proof (Hup _ Hs). destruct Hn as [Hn|[-> Hn]].
    + pose proof (next_id_above s t _ Hn). lia.
    + rewrite Hn in Hs. by destruct Hs.
  - destruct Hn as [Hn|[-> _]]; [|done].
    rewrite Hnone in Hn. by destruct Hn.
Qed.

(** It depends on the keys in use in the table only. *)
Lemma next_id_ext (s1 s2 : Session) (t : table) :
  (∀ i, is_Some (rows s1 !! (t, i)) ↔ is_Some (rows s2 !! (t, i))) →
  next_id s1 t = next_id s2 t.
Proof.
  intros H. apply next_id_unique.
  - intros i Hi%H. by apply next_id_above.
  - destruct (next_id_spec s2 t) as [Hs|[Hs Hnone]].
    + left. by apply H.
    + right. split; [done|]. intros i. apply eq_None_not_Some.
      intros Hi%H. rewrite Hnone in Hi. by destruct Hi.
Qed.

(** The key the store gives is free, and at least 1 when no key in use is
    negative. *)
Lemma next_id_free (s : Session) (t : table) :
  session_wf s → rows s !! (t, next_id s t) = None.
Proof.
  intros _. apply eq_None_not_Some. intros H%next_id_above. lia.
Qed.

Lemma next_id_pos (s : Session) (t : table) : session_wf s → 1 ≤ next_id s t.
Proof.
  intros Hwf. destruct (next_id_spec s t) as [Hs|[-> _]]; [|done].
  pose proof (wf_ids s Hwf _ Hs) as H. cbn in H. lia.
Qed.

(** *** UPDATE *)

Lemma updates_columns_ok (s : Session) :
  session_wf s → flushable s →
  map_Forall (λ _ e, columns_ok e = true) (updates s).
Proof.
  intros Hwf Hfl k e. rewrite updates_lookup.
  destruct (identity_map s !! k) as [r|] eqn:Hk; [|done].
  case_bool_decide; [done|].
  destruct (objects s !! r) as [e0|] eqn:Hr; [|done]. cbn. intros [= <-].
  rewrite columns_ok_set_pk. by eapply Hfl.
Qed.

Lemma flush_updates_Some (s : Session) :
  session_wf s → flushable s → flush_updates s = Some (write_updates s).
Proof.
  intros Hwf Hfl. unfold flush_updates.
  by rewrite bool_decide_eq_true_2 by by apply updates_columns_ok.
Qed.

Lemma write_updates_rows (s : Session) (k : key) :
  session_wf s →
  rows (write_updates s) !! k =
  match identity_map s !! k with
  | Some r => if bool_decide (r ∈ deleted s) then rows s !! k else objects s !! r
  | None => rows s !! k
  end.
Proof.
  intros Hwf. cbn. rewrite lookup_union.
  destruct (identity_map s !! k) as [r|] eqn:Hk.
  - case_bool_decide as Hd.
    + rewrite updates_lookup, Hk, bool_decide_eq_true_2 by done.
      by destruct (rows s !! k).
    + rewrite (updates_lookup_wf s k r) by done.
      destruct (wf_identity s Hwf k r Hk) as (e & -> & _).
      by destruct (rows s !! k).
  - rewrite updates_lookup_None by done. by destruct (rows s !! k).
Qed.

Lemma write_updates_is_Some (s : Session) (k : key) :
  session_wf s →
  is_Some (rows (write_updates s) !! k) ↔ is_Some (rows s !! k).
Proof.
  intros Hwf. rewrite write_updates_rows by done.
  destruct (identity_map s !! k) as [r|] eqn:Hk; [|done].
  case_bool_decide; [done|].
  destruct (wf_identity s Hwf k r Hk) as (e & -> & _).
  split; [|by eauto]. intros _. apply (wf_persistent s Hwf). by eauto.
Qed.

Lemma write_updates_wf_valid (s : Session) :
  session_wf s → map_Forall (λ _ e, columns_ok e = true) (updates s) →
  session_wf (write_updates s).
Proof.
  intros Hwf Hok. split.
  - apply (wf_identity s Hwf).
  - intros k Hk. apply write_updates_is_Some; [done|]. by apply (wf_persistent s Hwf).
  - intros k e. rewrite write_updates_rows by done.
    destruct (identity_map s !! k) as [r|] eqn:Hk; [|apply (wf_rows s Hwf)].
    case_bool_decide; [apply (wf_rows s Hwf)|].
    intros Hr. destruct (wf_identity s Hwf k r Hk) as (e' & He' & Ht & Hpk).
    assert (e' = e) as -> by congruence. split_and!; [done..|].
    apply (Hok k). by rewrite (updates_lookup_wf s k r).
  - intros k Hk. apply (wf_ids s Hwf). by apply (write_updates_is_Some s k Hwf).
Qed.

Lemma write_updates_next_id (s : Session) (t : table) :
  session_wf s → next_id (write_updates s) t = next_id s t.
Proof. intros Hwf. apply next_id_ext. intros i. by apply write_updates_is_Some. Qed.

Lemma write_updates_wf (s : Session) :
  session_wf s → flushable s → session_wf (write_updates s).
Proof.
  intros Hwf Hfl. apply write_updates_wf_valid; [done|].
  by apply updates_columns_ok.
Qed.

Lemma write_updates_synced (s : Session) :
  session_wf s → deleted s = [] → synced (write_updates s).
Proof.
  intros Hwf Hd k r Hk. rewrite write_updates_rows by done. cbn in Hk.
  rewrite Hk, bool_decide_eq_false_2; [done|]. rewrite Hd. by intros ?%elem_of_nil.
Qed.

Lemma write_updates_synced_rows (s : Session) :
  session_wf s → synced s → rows (write_updates s) = rows s.
Proof.
  intros Hwf Hs. apply map_eq. intros k. rewrite write_updates_rows by done.
  destruct (identity_map s !! k) as [r|] eqn:Hk; [|done].
  case_bool_decide; [done|]. by apply Hs.
Qed.

Lemma write_updates_flushable (s : Session) :
  flushable s → flushable (write_updates s).
Proof. done. Qed.

(** *** INSERT *)

Lemma register_wf (r : ref) (e : entity) (k : key) (s : Session) :
  session_wf s → (∀ k', identity_map s !! k' ≠ Some r) → rows s !! k = None →
  tablename e = k.1 → pk e = Some k.2 → columns_ok e = true → 0 ≤ k.2 →
  session_wf (register r e k s).
Proof.
  intros Hwf Hr Hk Ht Hpk Hok Hpos. split; cbn.
  - intros k' r'. destruct (decide (k = k')) as [<-|Hne].
    + rewrite lookup_insert_eq. intros [= <-]. exists e.
      by rewrite lookup_insert_eq.
    + rewrite lookup_insert_ne by done. intros Hk'.
      rewrite lookup_insert_ne by (intros ->; by apply (Hr k')).
      by apply (wf_identity s Hwf).
  - intros k'. destruct (decide (k = k')) as [<-|Hne].
    + rewrite !lookup_insert_eq. by eauto.
    + rewrite !lookup_insert_ne by done. apply (wf_persistent s Hwf).
  - intros k' e'. destruct (decide (k = k')) as [<-|Hne].
    + rewrite lookup_insert_eq. by intros [= <-].
    + rewrite lookup_insert_ne by done. apply (wf_rows s Hwf).
  - intros k'. destruct (decide (k = k')) as [<-|Hne]; [done|].
    rewrite lookup_insert_ne by done. apply (wf_ids s Hwf).
Qed.

Lemma register_flushable (r : ref) (e : entity) (k : key) (s : Session) :
  flushable s → (∀ k', identity_map s !! k' ≠ Some r) → columns_ok e = true →
  flushable (register r e k s).
Proof.
  intros Hfl Hr Hok k' r' e'. cbn. destruct (decide (k = k')) as [<-|Hne].
  - rewrite lookup_insert_eq. intros [= <-]. rewrite lookup_insert_eq. congruence.
  - rewrite lookup_insert_ne by done. intros Hk'.
    rewrite lookup_insert_ne by (intros ->; by apply (Hr k')).
    by apply (Hfl k' r').
Qed.

Lemma register_synced (r : ref) (e : entity) (k : key) (s : Session) :
  session_wf s → synced s → (∀ k', identity_map s !! k' ≠ Some r) →
  rows s !! k = None → synced (register r e k s).
Proof.
  intros Hwf Hs Hr Hk k' r'. cbn. destruct (decide (k = k')) as [<-|Hne].
  - rewrite lookup_insert_eq. intros [= <-]. by rewrite !lookup_insert_eq.
  - rewrite lookup_insert_ne by done. intros Hk'.
    rewrite lookup_insert_ne by (intros ->; by apply (Hr k')).
    rewrite lookup_insert_ne by done. by apply Hs.
Qed.

(** A valid pending instance whose key is free is inserted. *)
Lemma insert_row_Some (r : ref) (e : entity) (s : Session) :
  objects s !! r = Some e → columns_ok e = true →
  let i := default (next_id s (tablename e)) (pk e) in
  rows s !! (tablename e, i) = None →
  insert_row r s = Some (register r (set_pk (Some i) e) (tablename e, i) s).
Proof.
  intros He Hok i Hi. subst i. unfold insert_row. rewrite He, Hok. cbn zeta.
  by rewrite Hi.
Qed.

(** *** DELETE *)

Lemma unregister_wf (k : key) (s : Session) :
  session_wf s → session_wf (unregister k s).
Proof.
  intros Hwf. split; cbn.
  - intros k' r' [_ Hk']%lookup_delete_Some. by apply (wf_identity s Hwf).
  - intros k' [r' [Hne Hk']%lookup_delete_Some].
    rewrite lookup_delete_ne by done. apply (wf_persistent s Hwf). by eauto.
  - intros k' e' [_ Hk']%lookup_delete_Some. by apply (wf_rows s Hwf).
  - intros k' [e' [_ Hk']%lookup_delete_Some]. apply (wf_ids s Hwf). by eauto.
Qed.

Lemma unregister_flushable (k : key) (s : Session) :
  flushable s → flushable (unregister k s).
Proof.
  intros Hfl k' r' e'. cbn. intros [_ Hk']%lookup_delete_Some.
  by apply (Hfl k' r').
Qed.

Lemma unregister_synced (k : key) (s : Session) :
  synced s → synced (unregister k s).
Proof.
  intros Hs k' r'. cbn. intros [Hne Hk']%lookup_delete_Some.
  rewrite lookup_delete_ne by done. by apply Hs.
Qed.

(** Clearing the pending and deleted collections touches nothing else. *)
Lemma flushed_wf (s : Session) : session_wf s → session_wf (flushed s).
Proof. intros [H1 H2 H3 H4]. by split. Qed.

Lemma flushed_flushable (s : Session) : flushable s → flushable (flushed s).
Proof. done. Qed.

Lemma flushed_synced (s : Session) : synced s → synced (flushed s).
Proof. done. Qed.

Lemma commit_rows_wf (s : Session) : session_wf s → session_wf (commit_rows s).
Proof. intros [H1 H2 H3 H4]. by split. Qed.

(** *** Flush and commit, by what is pending *)

(** Nothing pending: the flush writes the persistent instances. *)
Lemma flush_quiescent (s : Session) :
  session_wf s → flushable s → new s = [] → deleted s = [] →
  inactive s = false →
  flush s = (Ok tt, flushed (write_updates s)).
Proof.
  intros Hwf Hfl Hn Hd Ha. unfold flush. rewrite Ha.
  rewrite flush_updates_Some by done. cbn.
  rewrite Hn. cbn. unfold flush_deletes. cbn. by rewrite Hd.
Qed.

(** One pending instance: it is inserted after the updates. *)
Lemma flush_pending (s : Session) (r : ref) (e : entity) :
  session_wf s → flushable s → new s = [r] → deleted s = [] →
  inactive s = false →
  objects s !! r = Some e → columns_ok e = true →
  let i := default (next_id s (tablename e)) (pk e) in
  rows s !! (tablename e, i) = None →
  flush s
  = (Ok tt, flushed (register r (set_pk (Some i) e) (tablename e, i)
                              (write_updates s))).
Proof.
  intros Hwf Hfl Hn Hd Ha He Hok i Hi. unfold flush. rewrite Ha.
  rewrite flush_updates_Some by done. cbn. rewrite Hn. cbn.
  rewrite (insert_row_Some r e (write_updates s)); [| done | done |].
  - rewrite write_updates_next_id by done.
    cbn. unfold flush_deletes. cbn. by rewrite Hd.
  - cbn zeta. rewrite write_updates_next_id by done. apply eq_None_not_Some.
    intros H%(write_updates_is_Some s _ Hwf). subst i.
    rewrite Hi in H. by destruct H.
Qed.

(** One instance marked for deletion: its row goes after the updates. *)
Lemma flush_deleted (s : Session) (r : ref) (e : entity) (i : Z) :
  session_wf s → flushable s → new s = [] → deleted s = [r] →
  inactive s = false →
  objects s !! r = Some e → pk e = Some i →
  flush s = (Ok tt, flushed (unregister (tablename e, i) (write_updates s))).
Proof.
  intros Hwf Hfl Hn Hd Ha He Hpk. unfold flush. rewrite Ha.
  rewrite flush_updates_Some by done. cbn. rewrite Hn. cbn.
  unfold flush_deletes. cbn. rewrite Hd. cbn. unfold delete_row. cbn.
  by rewrite He, Hpk.
Qed.

Lemma commit_of_flush (s s' : Session) :
  flush s = (Ok tt, s') → commit s = (Ok tt, commit_rows s').
Proof. intros H. unfold commit, bind. by rewrite H. Qed.

(** A flush in a session with nothing pending and nothing out of step
    changes nothing. *)
Lemma flush_synced (s : Session) :
  session_wf s → synced s → new s = [] → deleted s = [] →
  inactive s = false →
  flush s = (Ok tt, s).
Proof.
  intros Hwf Hs Hn Hd Ha.
  assert (flushable s) as Hfl.
  { intros k r e Hk He. rewrite (Hs k r Hk) in He.
    by apply (wf_rows s Hwf) in He as (_ & _ & ?). }
  rewrite flush_quiescent by done. f_equal.
  unfold flushed. rewrite (write_updates_synced_rows s Hwf Hs). cbn.
  destruct s; cbn in *. by subst.
Qed.

(** The invariants do not look at the pending and deleted collections. *)
Lemma with_new_wf (l : list ref) (s : Session) :
  session_wf s → session_wf (with_new l s).
Proof. intros [H1 H2 H3 H4]. by split. Qed.

Lemma with_deleted_wf (l : list ref) (s : Session) :
  session_wf s → session_wf (with_deleted l s).
Proof. intros [H1 H2 H3 H4]. by split. Qed.

Lemma commit_quiescent (s : Session) :
  session_wf s → quiescent s → flushable s →
  commit s = (Ok tt, commit_rows (flushed (write_updates s))).
Proof.
  intros Hwf (Hn & Hd & Ha) Hfl. apply commit_of_flush. by apply flush_quiescent.
Qed.

(** ** [save] and [delete], path by path *)

(** [save] of an instance the session does not hold and whose id is [None]
    or 0: it becomes pending and the commit inserts it. *)
Lemma save_unattached_falsy (s : Session) (self : ref) (e : entity) :
  session_wf s → quiescent s → flushable s →
  objects s !! self = Some e → truthy_id (pk e) = false →
  unattached self s → columns_ok e = true →
  let i := default (next_id s (tablename e)) (pk e) in
  rows s !! (tablename e, i) = None →
  Model.save self s
  = (Ok tt, commit_rows (flushed (register self (set_pk (Some i) e)
                                           (tablename e, i)
                                           (write_updates (with_new [self] s))))).
Proof.
  intros Hwf (Hn & Hd & Ha) Hfl He Hid Hun Hok i Hi.
  unfold Model.save, bind, getattr_id. rewrite He, Hid. cbn.
  unfold session_add. rewrite (proj2 (attached_false self s)) by done.
  rewrite Hn. cbn.
  apply commit_of_flush.
  apply (flush_pending (with_new [self] s) self e);
    [by apply with_new_wf | done..].
Qed.

(** [save] of a persistent instance: nothing is added, the commit writes the
    instance's values to its row. *)
Lemma save_attached (s : Session) (self : ref) (k : key) :
  session_wf s → quiescent s → flushable s →
  identity_map s !! k = Some self →
  Model.save self s = (Ok tt, commit_rows (flushed (write_updates s))).
Proof.
  intros Hwf Hq Hfl Hk.
  destruct (wf_identity s Hwf k self Hk) as (e & He & _).
  unfold Model.save, bind, getattr_id. rewrite He.
  assert (attached self s = true) as Hat by (apply attached_true; eauto).
  destruct (truthy_id (pk e)); cbn.
  - by apply commit_quiescent.
  - unfold session_add. rewrite Hat. cbn. by apply commit_quiescent.
Qed.

(** [save] of an instance whose id is neither [None] nor 0 is the commit
    alone. *)
Lemma save_truthy (s : Session) (self : ref) (e : entity) :
  objects s !! self = Some e → truthy_id (pk e) = true →
  Model.save self s = commit s.
Proof.
  intros He Hid. unfold Model.save, bind, getattr_id. rewrite He, Hid. cbn.
  by destruct (commit s) as [[] ?].
Qed.

(** [delete] of an instance whose id is [None] or 0 is the commit alone. *)
Lemma delete_falsy (s : Session) (self : ref) (e : entity) :
  objects s !! self = Some e → truthy_id (pk e) = false →
  Model.delete self s = commit s.
Proof.
  intros He Hid. unfold Model.delete, bind, getattr_id. rewrite He, Hid. cbn.
  by destruct (commit s) as [[] ?].
Qed.

(** [delete] of a persistent instance with a nonzero id: it is marked and
    the commit deletes its row. *)
Lemma delete_attached_truthy (s : Session) (self : ref) (t : table) (i : Z) :
  session_wf s → quiescent s → flushable s →
  identity_map s !! (t, i) = Some self → i ≠ 0 →
  Model.delete self s
  = (Ok tt, commit_rows (flushed (unregister (t, i)
                                    (write_updates (with_deleted [self] s))))).
Proof.
  intros Hwf (Hn & Hd & Ha) Hfl Hk Hi.
  destruct (wf_identity s Hwf _ self Hk) as (e & He & Ht & Hpk). cbn in Ht, Hpk.
  unfold Model.delete, bind, getattr_id. rewrite He, Hpk. cbn.
  rewrite (proj2 (Z.eqb_neq i 0)) by done. cbn.
  unfold session_delete.
  rewrite (proj2 (attached_true self s)) by eauto.
  rewrite Hd. cbn.
  apply commit_of_flush. rewrite <-Ht.
  apply (flush_deleted (with_deleted [self] s) self e i);
    [by apply with_deleted_wf | done..].
Qed.

(** ** Reaching well-formed sessions *)

Lemma empty_session_wf : session_wf empty_session.
Proof.
  split; cbn.
  - intros k r. by rewrite lookup_empty.
  - intros k [r Hr]. by rewrite lookup_empty in Hr.
  - intros k e. by rewrite lookup_empty.
  - intros k [e He]. by rewrite lookup_empty in He.
Qed.

Lemma construct_spec (e : entity) (s : Session) :
  ∃ r, objects s !! r = None ∧
       construct e s
       = (Ok r, mkSession (<[r := e]> (objects s)) (identity_map s) (new s)
                          (deleted s) (rows s) (committed s) (inactive s)).
Proof.
  exists (fresh (dom (objects s))). split; [|done].
  apply not_elem_of_dom. apply is_fresh.
Qed.

Lemma construct_wf (e : entity) (s : Session) :
  session_wf s → session_wf (construct e s).2.
Proof.
  intros Hwf. destruct (construct_spec e s) as (r & Hr & ->). split; cbn.
  - intros k r' Hk. destruct (wf_identity s Hwf k r' Hk) as (e' & He' & H).
    exists e'. split; [|done]. rewrite lookup_insert_ne; [done|]. congruence.
  - apply (wf_persistent s Hwf).
  - apply (wf_rows s Hwf).
  - apply (wf_ids s Hwf).
Qed.

Lemma construct_unattached (e : entity) (s : Session) :
  session_wf s → ∀ r s', construct e s = (Ok r, s') →
  unattached r s' ∧ objects s' !! r = Some e.
Proof.
  intros Hwf r s' H. destruct (construct_spec e s) as (r0 & Hr0 & Heq).
  rewrite Heq in H. injection H as <- <-. split.
  - intros k Hk. cbn in Hk.
    destruct (wf_identity s Hwf k r0 Hk) as (e' & He' & _). congruence.
  - cbn. by rewrite lookup_insert_eq.
Qed.

Lemma construct_flushable (e : entity) (s : Session) :
  session_wf s → flushable s → flushable (construct e s).2.
Proof.
  intros Hwf Hfl. destruct (construct_spec e s) as (r & Hr & ->).
  intros k r' e'. cbn. intros Hk.
  destruct (wf_identity s Hwf k r' Hk) as (e0 & He0 & _).
  rewrite lookup_insert_ne by congruence. by apply (Hfl k r').
Qed.

Lemma construct_quiescent (e : entity) (s : Session) :
  quiescent s → quiescent (construct e s).2.
Proof. done. Qed.

(** [get] of an instance the session holds, with nothing to flush: the
    instance, and no change. *)
Lemma get_attached (s : Session) (t : table) (i : Z) (r : ref) :
  session_wf s → quiescent s → synced s →
  identity_map s !! (t, i) = Some r → Model.get t i s = (Ok (Some r), s).
Proof.
  intros Hwf (Hn & Hd & Ha) Hs H. unfold Model.get, query_get, bind.
  rewrite flush_synced by done. unfold load. by rewrite H.
Qed.

(** ** Saving a new instance *)

(** An instance without an id is not in the identity map. *)
Lemma fresh_unattached (s : Session) (self : ref) (e : entity) :
  session_wf s → objects s !! self = Some e → pk e = None → unattached self s.
Proof.
  intros Hwf He Hpk k Hk.
  destruct (wf_identity s Hwf k self Hk) as (e' & He' & _ & Hp). congruence.
Qed.

(** The state a [save] of a new valid instance leaves: well-formed, nothing
    pending, every persistent instance in step with its row. *)
Lemma save_fresh_state (s : Session) (self : ref) (e : entity) :
  session_wf s → quiescent s → flushable s →
  objects s !! self = Some e → pk e = None → columns_ok e = true →
  let i := next_id s (tablename e) in
  let s' := commit_rows (flushed (register self (set_pk (Some i) e)
                                           (tablename e, i)
                                           (write_updates (with_new [self] s)))) in
  Model.save self s = (Ok tt, s') ∧
  session_wf s' ∧ quiescent s' ∧ synced s' ∧ rows s' = committed s'.
Proof.
  intros Hwf Hq Hfl He Hpk Hok i s'.
  assert (unattached self s) as Hun by by eapply fresh_unattached.
  assert (rows s !! (tablename e, i) = None) as Hi by by apply next_id_free.
  assert (session_wf (with_new [self] s)) as Hwf1 by by apply with_new_wf.
  assert (rows (write_updates (with_new [self] s)) !! (tablename e, i) = None) as Hi'.
  { apply eq_None_not_Some. intros H%(write_updates_is_Some _ _ Hwf1).
    cbn in H. rewrite Hi in H. by destruct H. }
  split_and!.
  - rewrite (save_unattached_falsy s self e); try done; by rewrite Hpk.
  - apply commit_rows_wf, flushed_wf, register_wf;
      [by apply write_updates_wf | done | done | | | | ].
    + by rewrite tablename_set_pk.
    + by rewrite pk_set_pk.
    + by rewrite columns_ok_set_pk.
    + pose proof (next_id_pos s (tablename e) Hwf). cbn. lia.
  - split_and!; [done | done | apply Hq].
  - apply (register_synced self _ _ (write_updates (with_new [self] s)));
      [by apply write_updates_wf | | done | done].
    apply write_updates_synced; [done|]. apply Hq.
  - done.
Qed.

(** C6: [save] of a new instance with valid fields succeeds, gives it an id
    that is a number other than 0 and that no row had, stores its row under
    that id, and [get] with that id then returns that very instance. *)
Theorem save_fresh_assigns_id_and_get (s : Session) (self : ref) (e : entity) :
  session_wf s → quiescent s → flushable s →
  objects s !! self = Some e → pk e = None → columns_ok e = true →
  ∃ s' i,
    Model.save self s = (Ok tt, s') ∧
    i ≠ 0 ∧ rows s !! (tablename e, i) = None ∧
    objects s' !! self = Some (set_pk (Some i) e) ∧
    rows s' !! (tablename e, i) = Some (set_pk (Some i) e) ∧
    Model.get (tablename e) i s' = (Ok (Some self), s').
Proof.
  intros Hwf Hq Hfl He Hpk Hok.
  destruct (save_fresh_state s self e) as (Hsave & Hwf' & Hq' & Hs' & _);
    try done.
  eexists _, (next_id s (tablename e)). split; [exact Hsave|].
  split_and!.
  - pose proof (next_id_pos s (tablename e) Hwf). lia.
  - by apply next_id_free.
  - cbn. by rewrite lookup_insert_eq.
  - cbn. by rewrite lookup_insert_eq.
  - apply get_attached; try done. cbn. by rewrite lookup_insert_eq.
Qed.

Lemma save_fresh_assigns_id_and_get_witness :
  let e := AWishlist (Wishlist.mk None (PInt 5) (PStr "gifts")) in
  let self := fresh (dom (objects empty_session)) in
  let s := (construct e empty_session).2 in
  ∃ s' i,
    Model.save self s = (Ok tt, s') ∧
    i ≠ 0 ∧ rows s !! (tablename e, i) = None ∧
    objects s' !! self = Some (set_pk (Some i) e) ∧
    rows s' !! (tablename e, i) = Some (set_pk (Some i) e) ∧
    Model.get (tablename e) i s' = (Ok (Some self), s').
Proof.
  intros e self s. apply (save_fresh_assigns_id_and_get s self e).
  - apply construct_wf, empty_session_wf.
  - done.
  - intros k r e'. cbn. by rewrite lookup_empty.
  - cbn. by rewrite lookup_insert_eq.
  - reflexivity.
  - reflexivity.
Defined.

(** ** The invariants are kept *)

Lemma flush_Ok_inv (s s' : Session) :
  flush s = (Ok tt, s') →
  inactive s = false ∧
  map_Forall (λ _ e, columns_ok e = true) (updates s) ∧
  ∃ s1, flush_inserts (new s) (write_updates s) = Some s1 ∧
        s' = flushed (flush_deletes s1).
Proof.
  unfold flush, flush_updates. destruct (inactive s) eqn:Hin; [done|].
  case_bool_decide as Hok; cbn; [|done].
  destruct (flush_inserts (new s) (write_updates s)) as [s1|] eqn:H1; [|done].
  intros [= <-]. eauto.
Qed.

Lemma commit_Ok_inv (s s' : Session) :
  commit s = (Ok tt, s') → ∃ s1, flush s = (Ok tt, s1) ∧ s' = commit_rows s1.
Proof.
  unfold commit, bind, modify. destruct (flush s) as [[[]|x] s1]; [|done].
  intros [= <-]. eauto.
Qed.

Lemma insert_row_inv (r : ref) (s s' : Session) :
  insert_row r s = Some s' →
  ∃ e, objects s !! r = Some e ∧ columns_ok e = true ∧
       let i := default (next_id s (tablename e)) (pk e) in
       rows s !! (tablename e, i) = None ∧
       s' = register r (set_pk (Some i) e) (tablename e, i) s.
Proof.
  unfold insert_row. destruct (objects s !! r) as [e|]; [|done].
  destruct (columns_ok e) eqn:Hok; [|done].
  destruct (rows s !! _) eqn:Hi; [done|]. intros [= <-]. by exists e.
Qed.

(** A commit with nothing pending leaves a well-formed session in which
    every persistent instance is in step with its row. *)
Lemma commit_quiescent_inv (s s' : Session) :
  session_wf s → quiescent s → commit s = (Ok tt, s') →
  session_wf s' ∧ quiescent s' ∧ synced s' ∧ rows s' = committed s'.
Proof.
  intros Hwf (Hn & Hd & Ha) (s1 & (Ha0 & Hok & s2 & H2 & ->)%flush_Ok_inv & ->)%commit_Ok_inv.
  rewrite Hn in H2. injection H2 as <-.
  unfold flush_deletes. cbn. rewrite Hd. cbn.
  split; [by apply commit_rows_wf, flushed_wf, write_updates_wf_valid|].
  split; [by split_and!|]. split; [|done].
  by apply (write_updates_synced s).
Qed.

Lemma save_preserves (s s' : Session) (self : ref) :
  session_wf s → quiescent s → Model.save self s = (Ok tt, s') →
  session_wf s' ∧ quiescent s' ∧ synced s' ∧ rows s' = committed s'.
Proof.
  intros Hwf Hq. unfold Model.save, bind at 1, getattr_id.
  destruct (objects s !! self) as [e|] eqn:He; [|done].
  destruct (truthy_id (pk e)) eqn:Hid; cbn.
  { unfold bind, ret. by apply commit_quiescent_inv. }
  unfold bind, session_add. destruct (attached self s) eqn:Hat; cbn.
  { by apply commit_quiescent_inv. }
  destruct Hq as (Hn & Hd & Ha). rewrite Hn. cbn.
  intros (s1 & (Ha0 & Hok & s2 & H2 & ->)%flush_Ok_inv & ->)%commit_Ok_inv.
  cbn in H2. destruct (insert_row _ _) as [s3|] eqn:H3; [|done].
  injection H2 as ->.
  apply insert_row_inv in H3 as (e' & He' & Hok' & Hi & ->).
  cbn in He'. assert (e' = e) as -> by congruence.
  unfold flush_deletes. cbn. rewrite Hd. cbn.
  assert (session_wf (write_updates (with_new [self] s))) as Hwf1.
  { apply write_updates_wf_valid; [by apply with_new_wf | done]. }
  assert (unattached self (write_updates (with_new [self] s))) as Hun.
  { exact (proj1 (attached_false self s) Hat). }
  split; [|split; [by split_and!|split; [|done]]].
  - apply commit_rows_wf, flushed_wf, register_wf; try done.
    + by rewrite tablename_set_pk.
    + by rewrite pk_set_pk.
    + by rewrite columns_ok_set_pk.
    + cbn. destruct (pk e) as [j|]; cbn in *.
      * destruct (Z.eqb_spec j 0); [lia | done].
      * pose proof (next_id_pos _ (tablename e) Hwf1). lia.
  - apply (register_synced self _ _ (write_updates (with_new [self] s)));
      try done.
    apply write_updates_synced; [by apply with_new_wf | done].
Qed.

(** No instance is registered under two keys. *)
Lemma identity_map_inj (s : Session) (k1 k2 : key) (r : ref) :
  session_wf s → identity_map s !! k1 = Some r → identity_map s !! k2 = Some r →
  k1 = k2.
Proof.
  intros Hwf (e1 & He1 & Ht1 & Hp1)%(wf_identity s Hwf)
             (e2 & He2 & Ht2 & Hp2)%(wf_identity s Hwf).
  assert (e1 = e2) as -> by congruence.
  destruct k1, k2; cbn in *. congruence.
Qed.

(** The state a [delete] of a persistent instance leaves. *)
Lemma deleted_state (s : Session) (self : ref) (t : table) (i : Z) :
  session_wf s → quiescent s →
  map_Forall (λ _ e, columns_ok e = true) (updates (with_deleted [self] s)) →
  identity_map s !! (t, i) = Some self →
  let s' := commit_rows (flushed (unregister (t, i)
                                    (write_updates (with_deleted [self] s)))) in
  session_wf s' ∧ quiescent s' ∧ synced s' ∧ rows s' = committed s' ∧
  identity_map s' !! (t, i) = None ∧ rows s' !! (t, i) = None.
Proof.
  intros Hwf Hq Hok Hk s'.
  assert (session_wf (with_deleted [self] s)) as Hwf1 by by apply with_deleted_wf.
  split; [|split; [split_and!; [done | done | apply Hq]|split; [|split; [done|split]]]].
  - by apply commit_rows_wf, flushed_wf, unregister_wf, write_updates_wf_valid.
  - intros k' r'. cbn. intros [Hne Hk']%lookup_delete_Some.
    rewrite lookup_delete_ne by done.
    pose proof (write_updates_rows (with_deleted [self] s) k' Hwf1) as Hrows.
    cbn in Hrows. rewrite Hrows, Hk'.
    rewrite bool_decide_eq_false_2; [done|].
    intros ->%list_elem_of_singleton. apply Hne.
    by apply (identity_map_inj s _ _ self).
  - cbn. by rewrite lookup_delete_eq.
  - cbn. by rewrite lookup_delete_eq.
Qed.

Lemma delete_preserves (s s' : Session) (self : ref) :
  session_wf s → quiescent s → Model.delete self s = (Ok tt, s') →
  session_wf s' ∧ quiescent s' ∧ synced s' ∧ rows s' = committed s'.
Proof.
  intros Hwf Hq. unfold Model.delete, bind at 1, getattr_id.
  destruct (objects s !! self) as [e|] eqn:He; [|done].
  destruct (truthy_id (pk e)) eqn:Hid; cbn;
    [|unfold bind, ret; by apply commit_quiescent_inv].
  unfold bind, session_delete. destruct (attached self s) eqn:Hat; cbn; [|done].
  pose proof Hq as (Hn & Hd & Ha). rewrite Hd. cbn.
  intros (s1 & (Ha0 & Hok & s2 & H2 & ->)%flush_Ok_inv & ->)%commit_Ok_inv.
  cbn in H2. rewrite Hn in H2. injection H2 as <-.
  apply attached_true in Hat as [[t i] Hk].
  destruct (wf_identity s Hwf _ self Hk) as (e' & He' & Ht & Hpk).
  assert (e' = e) as -> by congruence. cbn in Ht, Hpk.
  unfold flush_deletes. cbn. unfold delete_row. cbn. rewrite He, Hpk, Ht.
  by destruct (deleted_state s self t i) as (? & ? & ? & ? & _).
Qed.


(** [get] for a key without a row, in a session in step with its rows. *)
Lemma get_absent (s : Session) (t : table) (i : Z) :
  session_wf s → quiescent s → synced s → rows s !! (t, i) = None →
  Model.get t i s = (Ok None, s).
Proof.
  intros Hwf (Hn & Hd & Ha) Hs Hi. unfold Model.get, query_get.
  assert (identity_map s !! (t, i) = None) as Hk.
  { apply eq_None_not_Some. intros H%(wf_persistent s Hwf).
    rewrite Hi in H. by destruct H. }
  unfold bind. rewrite flush_synced by done.
  unfold load. by rewrite Hk, Hi.
Qed.

Lemma synced_flushable (s : Session) : session_wf s → synced s → flushable s.
Proof.
  intros Hwf Hs k r e Hk He. rewrite (Hs k r Hk) in He.
  by apply (wf_rows s Hwf) in He as (_ & _ & ?).
Qed.

(** What a commit with nothing pending writes: every persistent instance to
    its row, and nothing else. *)
Lemma commit_quiescent_rows (s : Session) (k : key) :
  session_wf s → quiescent s →
  rows (commit_rows (flushed (write_updates s))) !! k =
  match identity_map s !! k with
  | Some r => objects s !! r
  | None => rows s !! k
  end.
Proof.
  intros Hwf (Hn & Hd & Ha).
  change (rows (commit_rows (flushed (write_updates s))))
    with (rows (write_updates s)).
  rewrite write_updates_rows by done.
  destruct (identity_map s !! k) as [r|]; [|done].
  rewrite bool_decide_eq_false_2; [done|]. rewrite Hd. by intros ?%elem_of_nil.
Qed.

Lemma commit_quiescent_quiescent (s : Session) :
  quiescent s → quiescent (commit_rows (flushed (write_updates s))).
Proof. intros (Hn & Hd & Ha). by split_and!. Qed.

(** ** [save] *)



Lemma session_wf_b_correct (s : Session) : session_wf_b s = true → session_wf s.
Proof.
  unfold session_wf_b. rewrite !andb_true_iff, !bool_decide_eq_true.
  intros (((H1 & H2) & H3) & H4). split.
  - intros k r Hk. specialize (H1 k r Hk). cbn in H1.
    destruct (objects s !! r) as [e|]; [|done].
    apply bool_decide_eq_true in H1 as [? ?]. by exists e.
  - intros k [r Hk]. by apply (H2 k r).
  - apply H3.
  - intros k [e He]. by apply (H4 k e).
Qed.

Lemma flushable_b_correct (s : Session) : flushable_b s = true → flushable s.
Proof.
  unfold flushable_b. rewrite bool_decide_eq_true.
  intros H k r e Hk He. specialize (H k r Hk). cbn in H. by rewrite He in H.
Qed.


Example one_saved_wf : session_wf_b (one_saved empty_session).2 = true.
Proof. vm_compute. reflexivity. Qed.


(** ** [delete] *)

(** C7 does not hold of the code.  [Wishlist(id=0, customer_id=5)] is
    stored by [save], whose [if not self.id] adds it because 0 is false;
    [delete] on this persisted instance, guarded by [if self.id], skips
    [db.session.delete] and only commits, so that the row stays and
    [get(0)] still returns the instance. *)
Lemma delete_zero_id_counterexample :
  let s := (zero_id_saved empty_session).2 in
  let self := 1%positive in
  objects s !! self = Some (AWishlist (Wishlist.mk (Some 0) (PInt 5) PNone)) ∧
  persisted self wishlists 0 s ∧
  rows s !! (wishlists, 0) = Some (AWishlist (Wishlist.mk (Some 0) (PInt 5) PNone)) ∧
  Model.delete self s = (Ok tt, s) ∧
  Model.get wishlists 0 (Model.delete self s).2 = (Ok (Some self), s).
Proof. split_and!; by vm_compute. Qed.

(** What [delete] does, by the truth value of the id.  For a persisted
    instance with a nonzero id the row is gone, the deletion is committed
    and [get] with that id returns [None].  For an instance whose id is
    [None] or 0, [delete] is the commit alone: it adds and removes no row,
    and when the session holds nothing unflushed or uncommitted the store
    is as it was. *)
Theorem delete_removes_when_truthy :
  (∀ s self t i,
      session_wf s → quiescent s → flushable s →
      persisted self t i s → i ≠ 0 →
      ∃ s', Model.delete self s = (Ok tt, s') ∧
            rows s' !! (t, i) = None ∧ committed s' !! (t, i) = None ∧
            Model.get t i s' = (Ok None, s')) ∧
  (∀ s self e,
      session_wf s → quiescent s → flushable s →
      objects s !! self = Some e → truthy_id (pk e) = false →
      ∃ s', Model.delete self s = (Ok tt, s') ∧
            Model.delete self s = commit s ∧
            (∀ k, is_Some (rows s' !! k) ↔ is_Some (rows s !! k)) ∧
            committed s' = rows s' ∧
            (clean s → rows s' = rows s ∧ committed s' = committed s)).
Proof.
  split.
  - intros s self t i Hwf Hq Hfl Hk Hi.
    eexists. split; [by apply delete_attached_truthy|].
    destruct (deleted_state s self t i) as (Hwf' & Hq' & Hs' & Hc' & Hk' & Hr');
      try done.
    { apply updates_columns_ok; [by apply with_deleted_wf | done]. }
    split_and!; [done | done |]. by apply get_absent.
  - intros s self e Hwf Hq Hfl He Hid.
    eexists. rewrite (delete_falsy s self e) by done.
    split; [by apply commit_quiescent|].
    split_and!; [done | | done |].
    + intros k. by apply (write_updates_is_Some s k).
    + intros [Hs Hc]. cbn.
      change (updates s ∪ rows s) with (rows (write_updates s)).
      rewrite write_updates_synced_rows by done. by rewrite <-Hc.
Qed.

Lemma delete_removes_when_truthy_witness :
  (let s := (one_saved empty_session).2 in
   ∃ s', Model.delete 1%positive s = (Ok tt, s') ∧
         rows s' !! (wishlists, 1) = None ∧ committed s' !! (wishlists, 1) = None ∧
         Model.get wishlists 1 s' = (Ok None, s')) ∧
  (let s := (zero_id_saved empty_session).2 in
   ∃ s', Model.delete 1%positive s = (Ok tt, s') ∧
         Model.delete 1%positive s = commit s ∧
         (∀ k, is_Some (rows s' !! k) ↔ is_Some (rows s !! k)) ∧
         committed s' = rows s' ∧
         (clean s → rows s' = rows s ∧ committed s' = committed s)).
Proof.
  split.
  - intros s.
    apply (proj1 delete_removes_when_truthy s 1%positive wishlists 1).
    + apply session_wf_b_correct. vm_compute. reflexivity.
    + done.
    + apply flushable_b_correct. vm_compute. reflexivity.
    + vm_compute. reflexivity.
    + done.
  - intros s.
    apply (proj2 delete_removes_when_truthy s 1%positive
             (AWishlist (Wishlist.mk (Some 0) (PInt 5) PNone))).
    + apply session_wf_b_correct. vm_compute. reflexivity.
    + done.
    + apply flushable_b_correct. vm_compute. reflexivity.
    + vm_compute. reflexivity.
    + reflexivity.
Defined.

(** ** Queries *)

(** Loading the instance of an existing row: the identity map gains at most
    that row's entry, the rows stay, the invariants stay. *)
Lemma load_row (k : key) (e : entity) (s : Session) :
  session_wf s → synced s → rows s !! k = Some e →
  ∃ r s', load k s = (Ok (Some r), s') ∧
          session_wf s' ∧ synced s' ∧ rows s' = rows s ∧
          new s' = new s ∧ deleted s' = deleted s ∧
          identity_map s ⊆ identity_map s' ∧
          identity_map s' !! k = Some r ∧ objects s' !! r = Some e ∧
          inactive s' = inactive s.
Proof.
  intros Hwf Hs He. unfold load.
  destruct (identity_map s !! k) as [r|] eqn:Hk.
  { exists r, s. split_and!; try done. by rewrite (Hs k r Hk). }
  rewrite He. set (r := fresh (dom (objects s))).
  assert (objects s !! r = None) as Hr.
  { apply not_elem_of_dom. apply is_fresh. }
  assert (∀ k' r', identity_map s !! k' = Some r' → r' ≠ r) as Hne.
  { intros k' r' (e' & He' & _)%(wf_identity s Hwf) ->. congruence. }
  eexists r, _. split; [done|].
  destruct (wf_rows s Hwf k e He) as (Ht & Hp & Hok).
  split_and!; cbn; try done.
  - split; cbn.
    + intros k' r'. destruct (decide (k = k')) as [<-|Hkk].
      * rewrite lookup_insert_eq. intros [= <-]. exists e.
        by rewrite lookup_insert_eq.
      * rewrite lookup_insert_ne by done. intros Hk'.
        rewrite lookup_insert_ne by (apply not_eq_sym; by eapply Hne).
        by apply (wf_identity s Hwf).
    + intros k'. destruct (decide (k = k')) as [<-|Hkk].
      * rewrite lookup_insert_eq. by eauto.
      * rewrite lookup_insert_ne by done. apply (wf_persistent s Hwf).
    + apply (wf_rows s Hwf).
    + apply (wf_ids s Hwf).
  - intros k' r'. cbn. destruct (decide (k = k')) as [<-|Hkk].
    + rewrite lookup_insert_eq. intros [= <-]. by rewrite lookup_insert_eq.
    + rewrite lookup_insert_ne by done. intros Hk'.
      rewrite lookup_insert_ne by (apply not_eq_sym; by eapply Hne).
      by apply Hs.
  - by apply insert_subseteq.
  - by rewrite lookup_insert_eq.
  - by rewrite lookup_insert_eq.
Qed.

Lemma load_all_rows (ks : list key) (s : Session) :
  session_wf s → synced s → Forall (λ k, is_Some (rows s !! k)) ks →
  ∃ rs s', load_all ks s = (Ok rs, s') ∧
           session_wf s' ∧ synced s' ∧ rows s' = rows s ∧
           new s' = new s ∧ deleted s' = deleted s ∧
           identity_map s ⊆ identity_map s' ∧
           Forall2 (λ k r, identity_map s' !! k = Some r) ks rs ∧
           inactive s' = inactive s.
Proof.
  revert s. induction ks as [|k ks IH]; intros s Hwf Hs Hks.
  { exists [], s. by split_and!. }
  apply Forall_cons in Hks as [[e He] Hks].
  destruct (load_row k e s)
    as (r & s1 & Hl & Hwf1 & Hs1 & Hr1 & Hn1 & Hd1 & Hsub1 & Hk1 & _ & Ha1);
    try done.
  destruct (IH s1)
    as (rs & s2 & Hl2 & Hwf2 & Hs2 & Hr2 & Hn2 & Hd2 & Hsub2 & Hall & Ha2);
    try done.
  { by rewrite Hr1. }
  exists (r :: rs), s2. cbn. unfold bind. rewrite Hl, Hl2. cbn.
  split_and!; try done; try congruence.
  - by etrans.
  - constructor; [|done]. by eapply lookup_weaken.
Qed.

Lemma select_elem_of (q : Query) (s : Session) (k : key) :
  k ∈ select q s ↔
  ∃ e, rows s !! k = Some e ∧ k.1 = q_table q ∧ q_criterion q e = true.
Proof.
  unfold select. rewrite list_elem_of_fmap. split.
  - intros [[k' e] [-> [He HP]%elem_of_map_to_list%map_lookup_filter_Some]].
    by exists e.
  - intros (e & He & HP). exists (k, e). split; [done|].
    by apply elem_of_map_to_list, map_lookup_filter_Some.
Qed.

Lemma select_NoDup (q : Query) (s : Session) : NoDup (select q s).
Proof. apply NoDup_fst_map_to_list. Qed.

(** The instances of distinct keys are distinct. *)
Lemma loaded_NoDup (s : Session) (ks : list key) (rs : list ref) :
  session_wf s → NoDup ks →
  Forall2 (λ k r, identity_map s !! k = Some r) ks rs → NoDup rs.
Proof.
  intros Hwf Hnd Hall. induction Hall as [|k r ks rs Hk Hall IH];
    [constructor|].
  apply NoDup_cons in Hnd as [Hk' Hnd]. constructor; [|by apply IH].
  intros Hr. apply Hk'. clear IH Hnd Hk'.
  induction Hall as [|k' r' ks rs Hk'' Hall IH]; [by apply elem_of_nil in Hr|].
  apply elem_of_cons in Hr as [->|Hr].
  - apply elem_of_cons. left. by apply (identity_map_inj s _ _ r').
  - apply elem_of_cons. right. by apply IH.
Qed.

Lemma loaded_elem_of (s : Session) (ks : list key) (rs : list ref) :
  Forall2 (λ k r, identity_map s !! k = Some r) ks rs →
  ∀ r, r ∈ rs ↔ ∃ k, k ∈ ks ∧ identity_map s !! k = Some r.
Proof.
  intros Hall r. induction Hall as [|k r' ks rs Hk Hall IH].
  { split; [by intros ?%elem_of_nil | by intros (? & ?%elem_of_nil & _)]. }
  rewrite elem_of_cons, IH. split.
  - intros [->|(k' & Hin & Hk')].
    + exists k. split; [by left | done].
    + exists k'. split; [by right | done].
  - intros (k' & [->|Hin]%elem_of_cons & Hk').
    + left. congruence.
    + right. by exists k'.
Qed.

Lemma loaded_total (s : Session) (ks : list key) (rs : list ref) :
  Forall2 (λ k r, identity_map s !! k = Some r) ks rs →
  ∀ k, k ∈ ks → is_Some (identity_map s !! k).
Proof.
  intros Hall k. induction Hall as [|k' r' ks rs Hk Hall IH].
  { by intros ?%elem_of_nil. }
  intros [->|Hin]%elem_of_cons; [by eauto | by apply IH].
Qed.

(** Evaluating a query in a session with nothing pending: the flush, then
    one instance per selected row. *)
Lemma query_all_spec (q : Query) (s : Session) :
  session_wf s → quiescent s → flushable s →
  ∃ rs s', query_all q s = (Ok rs, s') ∧
           session_wf s' ∧ synced s' ∧ quiescent s' ∧
           rows s' = rows (write_updates s) ∧
           NoDup rs ∧
           (∀ r, r ∈ rs ↔ ∃ k, k ∈ select q s' ∧ identity_map s' !! k = Some r) ∧
           (∀ k, k ∈ select q s' → is_Some (identity_map s' !! k)).
Proof.
  intros Hwf (Hn & Hd & Ha) Hfl. unfold query_all, bind at 1.
  rewrite flush_quiescent by done. unfold bind, gets.
  set (s1 := flushed (write_updates s)).
  assert (session_wf s1) as Hwf1 by by apply flushed_wf, write_updates_wf.
  assert (synced s1) as Hs1 by by apply flushed_synced, write_updates_synced.
  destruct (load_all_rows (select q s1) s1)
    as (rs & s2 & Hl & Hwf2 & Hs2 & Hr2 & Hn2 & Hd2 & Hsub & Hall & Ha2);
    try done.
  { apply Forall_forall. intros k (e & He & _)%select_elem_of. by eauto. }
  exists rs, s2. rewrite Hl.
  assert (select q s2 = select q s1) as Hsel by (unfold select; by rewrite Hr2).
  assert (quiescent s2) as Hq2.
  { split_and!; [by rewrite Hn2 | by rewrite Hd2 | by rewrite Ha2]. }
  split; [done|]. split; [done|]. split; [done|]. split; [done|].
  split; [done|]. split; [by eapply loaded_NoDup; [| apply select_NoDup |]|].
  split.
  - rewrite Hsel. by apply loaded_elem_of.
  - rewrite Hsel. by eapply loaded_total.
Qed.



(** The example of the specification, run: after two Wishlists of customer 5 and
    one of customer 9 were saved, the query for 5 yields the first and the
    third instance, and the one for 9 the second. *)
Example find_by_customer_id_three_saved :
  let s := (three_saved empty_session).2 in
  (three_saved empty_session).1 = Ok [1; 2; 3]%positive ∧
  (∃ rs, query_all (find_by_customer_id 5) s = (Ok rs, s) ∧
         rs ≡ₚ [1; 3]%positive) ∧
  query_all (find_by_customer_id 9) s = (Ok [2%positive], s) ∧
  query_all (find_by_customer_id 4) s = (Ok [], s).
Proof.
  split_and!; [by vm_compute | | by vm_compute..].
  eexists. split; [by vm_compute|]. apply Permutation_swap.
Qed.


(** ** The other methods keep the invariants too *)

Lemma get_preserves (s s' : Session) (t : table) (i : Z) (o : option ref) :
  session_wf s → quiescent s → Model.get t i s = (Ok o, s') →
  session_wf s' ∧ quiescent s'.
Proof.
  intros Hwf Hq. unfold Model.get, query_get, bind.
  destruct (flush s) as [[[]|x] s1] eqn:Hfl; [|done].
  apply flush_Ok_inv in Hfl as (Ha0 & Hok & s2 & H2 & ->).
  destruct Hq as (Hn & Hd & Ha). rewrite Hn in H2. injection H2 as <-.
  unfold flush_deletes. cbn. rewrite Hd. cbn.
  set (s1 := flushed (write_updates s)).
  assert (session_wf s1) as Hwf1 by by apply flushed_wf, write_updates_wf_valid.
  assert (synced s1) as Hs1 by by apply flushed_synced, write_updates_synced.
  assert (quiescent s1) as Hq1 by by split_and!.
  destruct (rows s1 !! (t, i)) as [e|] eqn:He.
  - destruct (load_row (t, i) e s1)
      as (r & s2 & -> & Hwf2 & _ & _ & Hn2 & Hd2 & _ & _ & _ & Ha2); try done.
    intros [= <- <-]. split; [done|].
    split_and!; [by rewrite Hn2 | by rewrite Hd2 | by rewrite Ha2].
  - assert (identity_map s1 !! (t, i) = None) as Hk.
    { apply eq_None_not_Some. intros H%(wf_persistent s1 Hwf1).
      rewrite He in H. by destruct H. }
    unfold load. rewrite Hk, He. by intros [= <- <-].
Qed.

Lemma wishlist_deserialize_id (data : pyval) (self : Wishlist.t) :
  Wishlist.id (Wishlist.deserialize data self).2 = Wishlist.id self.
Proof.
  rewrite wishlist_deserialize_cases.
  destruct data as [| | | | | |m]; try reflexivity.
  destruct (m !! "customer_id"); [|reflexivity].
  destruct (m !! "wishlist_name"); reflexivity.
Qed.

Lemma item_deserialize_id (data wid : pyval) (self : Item.t) :
  Item.id (Item.deserialize data wid self).2 = Item.id self.
Proof.
  rewrite item_deserialize_cases. cbn zeta.
  destruct data as [| | | | | |m]; try reflexivity.
  destruct (m !! "product_id"); [|reflexivity].
  destruct (m !! "name"); [|reflexivity].
  destruct (m !! "description"); reflexivity.
Qed.

(** Replacing an instance by one of the same class and id keeps the
    session well-formed. *)
Lemma update_object_wf (s : Session) (self : ref) (e e' : entity) :
  session_wf s → objects s !! self = Some e →
  tablename e' = tablename e → pk e' = pk e →
  session_wf (mkSession (<[self := e']> (objects s)) (identity_map s) (new s)
                        (deleted s) (rows s) (committed s) (inactive s)).
Proof.
  intros Hwf He Ht Hp. split; cbn.
  - intros k r Hk. destruct (wf_identity s Hwf k r Hk) as (e0 & He0 & Ht0 & Hp0).
    destruct (decide (r = self)) as [->|Hne].
    + exists e'. rewrite lookup_insert_eq. split; [done|].
      assert (e0 = e) as -> by congruence. by rewrite Ht, Hp.
    + exists e0. by rewrite lookup_insert_ne.
  - apply (wf_persistent s Hwf).
  - apply (wf_rows s Hwf).
  - apply (wf_ids s Hwf).
Qed.

Lemma wishlist_deserialize_preserves (s : Session) (self : ref) (data : pyval) :
  session_wf s →
  session_wf (on_wishlist self (Wishlist.deserialize data) s).2.
Proof.
  intros Hwf. unfold on_wishlist.
  destruct (objects s !! self) as [[i|w]|] eqn:He; [done| |done].
  pose proof (wishlist_deserialize_id data w) as Hid.
  destruct (Wishlist.deserialize data w) as [o w']. cbn in *.
  by apply (update_object_wf s self (AWishlist w)).
Qed.

Lemma item_deserialize_preserves (s : Session) (self : ref) (data wid : pyval) :
  session_wf s →
  session_wf (on_item self (Item.deserialize data wid) s).2.
Proof.
  intros Hwf. unfold on_item.
  destruct (objects s !! self) as [[i|w]|] eqn:He; [|done..].
  pose proof (item_deserialize_id data wid i) as Hid.
  destruct (Item.deserialize data wid i) as [o i']. cbn in *.
  by apply (update_object_wf s self (AnItem i)).
Qed.

(** ** Examples *)

Example wishlist_roundtrip_ex :
  Wishlist.deserialize
    (Wishlist.serialize (Wishlist.mk (Some 4) (PInt 5) (PStr "xmas")))
    Wishlist.new
  = (Ok tt, Wishlist.mk None (PInt 5) (PStr "xmas")).
Proof. reflexivity. Qed.

Example item_missing_ex :
  Item.deserialize (PDict (<["product_id" := PInt 2]> ∅)) (PInt 9) Item.new
  = (Raise (DataValidationError "Invalid item: missing name"),
     Item.mk None (PInt 9) (PInt 2) PNone PNone).
Proof. reflexivity. Qed.

(** A Wishlist without [customer_id] is refused by the store: the flush
    raises and nothing is written. *)
Example save_null_customer_id :
  let s := (construct (AWishlist Wishlist.new) empty_session).2 in
  (Model.save 1%positive s).1 = Raise DatabaseError ∧
  rows (Model.save 1%positive s).2 = ∅.
Proof. split; by vm_compute. Qed.

(** [delete] on an instance that carries an id but was never saved is
    refused by the session. *)
Example delete_never_saved :
  let s := (saved_then_copied empty_session).2 in
  (Model.delete 2%positive s).1 = Raise InvalidRequestError.
Proof. by vm_compute. Qed.

(** The store takes a 64-bit integer and no larger one. *)
Example save_integer_range :
  let w c := AWishlist (Wishlist.mk None (PInt c) (PStr "gifts")) in
  (Model.save 1%positive (construct (w (2 ^ 63 - 1)) empty_session).2).1 = Ok tt ∧
  (Model.save 1%positive (construct (w (2 ^ 63)) empty_session).2).1
  = Raise DatabaseError ∧
  rows (Model.save 1%positive (construct (w (2 ^ 63)) empty_session).2).2 = ∅.
Proof. split_and!; by vm_compute. Qed.

(** A name longer than the 63 characters of its [String(63)] column is
    stored as it is. *)
Example save_long_name :
  let n := "0123456789012345678901234567890123456789012345678901234567890123" in
  let e := AnItem (Item.mk None (PInt 1) (PInt 30) (PStr n) PNone) in
  let s := (construct e empty_session).2 in
  String.length n = 64%nat ∧
  (Model.save 1%positive s).1 = Ok tt ∧
  rows (Model.save 1%positive s).2 !! (items, 1) = Some (set_pk (Some 1) e).
Proof. split_and!; by vm_compute. Qed.

(** The id of a deleted last row is given again: after ids 1 and 2 were
    given and row 2 was deleted, the next Wishlist saved gets id 2. *)
Example id_given_again_after_delete :
  let s := (saved_deleted_saved empty_session).2 in
  (saved_deleted_saved empty_session).1 = Ok [1; 2; 3]%positive ∧
  (pk <$> objects s !! 3%positive) = Some (Some 2) ∧
  identity_map s !! (wishlists, 2) = Some 3%positive.
Proof. split_and!; by vm_compute. Qed.

(** After a [save] the store refused, the session takes no further
    statement: the [save] of a valid Wishlist raises too, and so does a
    query, and nothing is stored. *)
Example save_after_refused_save :
  (refused_then_saved empty_session).1 = Raise InvalidRequestError ∧
  rows (refused_then_saved empty_session).2 = ∅ ∧
  (Model.all wishlists (refused_then_saved empty_session).2).1
  = Raise InvalidRequestError.
Proof. split_and!; by vm_compute. Qed.

(** * Further properties *)

(** ** Serialization *)

Lemma of_id_inj (i j : option Z) : of_id i = of_id j → i = j.
Proof. destruct i, j; cbn; congruence. Qed.

Lemma PDict_inj (m1 m2 : gmap string pyval) : PDict m1 = PDict m2 → m1 = m2.
Proof.
  intros H. exact (f_equal (λ v, match v with PDict m => m | _ => m1 end) H).
Qed.

(** X1: [serialize] loses nothing: two entities of a class with the same
    dictionary are the same entity. *)
Theorem serialize_injective :
  (∀ w1 w2 : Wishlist.t, Wishlist.serialize w1 = Wishlist.serialize w2 → w1 = w2) ∧
  (∀ i1 i2 : Item.t, Item.serialize i1 = Item.serialize i2 → i1 = i2).
Proof.
  split.
  - intros [i1 c1 n1] [i2 c2 n2] H%PDict_inj.
    assert (Some (of_id i1) = Some (of_id i2)) as Hi
      by exact (f_equal (λ m : gmap string pyval, m !! "id") H).
    assert (Some c1 = Some c2) as Hc
      by exact (f_equal (λ m : gmap string pyval, m !! "customer_id") H).
    assert (Some n1 = Some n2) as Hn
      by exact (f_equal (λ m : gmap string pyval, m !! "wishlist_name") H).
    injection Hi as Hi%of_id_inj. congruence.
  - intros [i1 w1 p1 n1 d1] [i2 w2 p2 n2 d2] H%PDict_inj.
    assert (Some (of_id i1) = Some (of_id i2)) as Hi
      by exact (f_equal (λ m : gmap string pyval, m !! "id") H).
    assert (Some w1 = Some w2) as Hw
      by exact (f_equal (λ m : gmap string pyval, m !! "wishlist_id") H).
    assert (Some p1 = Some p2) as Hp
      by exact (f_equal (λ m : gmap string pyval, m !! "product_id") H).
    assert (Some n1 = Some n2) as Hn
      by exact (f_equal (λ m : gmap string pyval, m !! "name") H).
    assert (Some d1 = Some d2) as Hd
      by exact (f_equal (λ m : gmap string pyval, m !! "description") H).
    injection Hi as Hi%of_id_inj. congruence.
Qed.

Lemma serialize_injective_witness :
  Wishlist.mk (Some 1) (PInt 5) (PStr "a") = Wishlist.mk (Some 1) (PInt 5) (PStr "a") ∧
  Item.mk None (PInt 1) (PInt 2) (PStr "mug") PNone
  = Item.mk None (PInt 1) (PInt 2) (PStr "mug") PNone.
Proof.
  split.
  - apply (proj1 serialize_injective). reflexivity.
  - apply (proj2 serialize_injective). reflexivity.
Defined.

(** X2: [deserialize] returns exactly on the mappings that hold every
    required key, whatever the values are; it then has stored those values,
    and nothing of what the instance held in these fields is left. *)
Theorem deserialize_returns_iff_keys :
  (∀ (data : pyval) (self : Wishlist.t),
      (Wishlist.deserialize data self).1 = Ok tt ↔
      ∃ m c n, data = PDict m ∧ m !! "customer_id" = Some c ∧
               m !! "wishlist_name" = Some n ∧
               (Wishlist.deserialize data self).2 = Wishlist.mk (Wishlist.id self) c n) ∧
  (∀ (data wid : pyval) (self : Item.t),
      (Item.deserialize data wid self).1 = Ok tt ↔
      ∃ m p n d, data = PDict m ∧ m !! "product_id" = Some p ∧
                 m !! "name" = Some n ∧ m !! "description" = Some d ∧
                 (Item.deserialize data wid self).2 = Item.mk (Item.id self) wid p n d).
Proof.
  split.
  - intros data self. rewrite wishlist_deserialize_cases. split.
    + destruct data as [| | | | | |m]; try done.
      destruct (m !! "customer_id") as [c|] eqn:Hc; [|done].
      destruct (m !! "wishlist_name") as [n|] eqn:Hn; [|done].
      intros _. by exists m, c, n.
    + intros (m & c & n & -> & Hc & Hn & _). by rewrite Hc, Hn.
  - intros data wid self. rewrite item_deserialize_cases. cbn zeta. split.
    + destruct data as [| | | | | |m]; try done.
      destruct (m !! "product_id") as [p|] eqn:Hp; [|done].
      destruct (m !! "name") as [n|] eqn:Hn; [|done].
      destruct (m !! "description") as [d|] eqn:Hd; [|done].
      intros _. by exists m, p, n, d.
    + intros (m & p & n & d & -> & Hp & Hn & Hd & _). by rewrite Hp, Hn, Hd.
Qed.

(** X3: only the required keys of the body count: two mappings that agree
    on them give the same outcome and the same instance, whatever else they
    hold. *)
Theorem deserialize_reads_required_keys_only :
  (∀ (m1 m2 : gmap string pyval) (self : Wishlist.t),
      m1 !! "customer_id" = m2 !! "customer_id" →
      m1 !! "wishlist_name" = m2 !! "wishlist_name" →
      Wishlist.deserialize (PDict m1) self = Wishlist.deserialize (PDict m2) self) ∧
  (∀ (m1 m2 : gmap string pyval) (wid : pyval) (self : Item.t),
      m1 !! "product_id" = m2 !! "product_id" →
      m1 !! "name" = m2 !! "name" →
      m1 !! "description" = m2 !! "description" →
      Item.deserialize (PDict m1) wid self = Item.deserialize (PDict m2) wid self).
Proof.
  split.
  - intros m1 m2 self Hc Hn. rewrite !wishlist_deserialize_cases.
    by rewrite Hc, Hn.
  - intros m1 m2 wid self Hp Hn Hd. rewrite !item_deserialize_cases.
    by rewrite Hp, Hn, Hd.
Qed.

Lemma deserialize_reads_required_keys_only_witness :
  Wishlist.deserialize
    (PDict (<["customer_id" := PInt 5]> (<["wishlist_name" := PStr "a"]>
           (<["color" := PStr "red"]> ∅)))) Wishlist.new
  = Wishlist.deserialize
      (PDict (<["wishlist_name" := PStr "a"]> (<["customer_id" := PInt 5]> ∅)))
      Wishlist.new ∧
  Item.deserialize
    (PDict (<["wishlist_id" := PInt 77]> (<["product_id" := PInt 2]> ∅)))
    (PInt 1) Item.new
  = Item.deserialize (PDict (<["product_id" := PInt 2]> ∅)) (PInt 1) Item.new.
Proof.
  split.
  - apply (proj1 deserialize_reads_required_keys_only); reflexivity.
  - apply (proj2 deserialize_reads_required_keys_only); reflexivity.
Defined.

(** X4: [deserialize] is idempotent: running it again with the same body on
    the instance it left gives the same outcome and changes nothing more,
    also when it raises half way. *)
Theorem deserialize_idempotent :
  (∀ (data : pyval) (self : Wishlist.t),
      Wishlist.deserialize data (Wishlist.deserialize data self).2
      = Wishlist.deserialize data self) ∧
  (∀ (data wid : pyval) (self : Item.t),
      Item.deserialize data wid (Item.deserialize data wid self).2
      = Item.deserialize data wid self).
Proof.
  split.
  - intros data self. rewrite (wishlist_deserialize_cases data self).
    destruct data as [| | | | | |m]; try reflexivity.
    destruct (m !! "customer_id") as [c|] eqn:Hc.
    + destruct (m !! "wishlist_name") as [n|] eqn:Hn;
        cbn; by rewrite wishlist_deserialize_cases, Hc, Hn.
    + cbn. by rewrite wishlist_deserialize_cases, Hc.
  - intros data wid self. rewrite (item_deserialize_cases data wid self). cbn zeta.
    destruct data as [| | | | | |m]; try reflexivity.
    destruct (m !! "product_id") as [p|] eqn:Hp;
      [|cbn; by rewrite item_deserialize_cases, Hp].
    destruct (m !! "name") as [n|] eqn:Hn;
      [|cbn; by rewrite item_deserialize_cases, Hp, Hn].
    destruct (m !! "description") as [d|] eqn:Hd;
      cbn; by rewrite item_deserialize_cases, Hp, Hn, Hd.
Qed.

(** X5: the other round trip: after a [deserialize] that returned,
    [serialize] gives back the body's value under every data key, the
    [wishlist_id] argument for an Item, and the instance's own id. *)
Theorem serialize_deserialize_data_keys :
  (∀ (m : gmap string pyval) (self self' : Wishlist.t),
      Wishlist.deserialize (PDict m) self = (Ok tt, self') →
      ∃ d, Wishlist.serialize self' = PDict d ∧
           d !! "customer_id" = m !! "customer_id" ∧
           d !! "wishlist_name" = m !! "wishlist_name" ∧
           d !! "id" = Some (of_id (Wishlist.id self))) ∧
  (∀ (m : gmap string pyval) (wid : pyval) (self self' : Item.t),
      Item.deserialize (PDict m) wid self = (Ok tt, self') →
      ∃ d, Item.serialize self' = PDict d ∧
           d !! "product_id" = m !! "product_id" ∧
           d !! "name" = m !! "name" ∧
           d !! "description" = m !! "description" ∧
           d !! "wishlist_id" = Some wid ∧
           d !! "id" = Some (of_id (Item.id self))).
Proof.
  split.
  - intros m self self'. rewrite wishlist_deserialize_cases.
    destruct (m !! "customer_id") as [c|]; [|done].
    destruct (m !! "wishlist_name") as [n|]; [|done].
    intros [= <-]. eexists. split; [reflexivity|]. by split_and!.
  - intros m wid self self'. rewrite item_deserialize_cases. cbn zeta.
    destruct (m !! "product_id") as [p|]; [|done].
    destruct (m !! "name") as [n|]; [|done].
    destruct (m !! "description") as [d|]; [|done].
    intros [= <-]. eexists. split; [reflexivity|]. by split_and!.
Qed.

Lemma serialize_deserialize_data_keys_witness :
  let m : gmap string pyval :=
    <["customer_id" := PInt 5]> (<["wishlist_name" := PStr "a"]> ∅) in
  ∃ d, Wishlist.serialize (Wishlist.mk (Some 3) (PInt 5) (PStr "a")) = PDict d ∧
       d !! "customer_id" = m !! "customer_id" ∧
       d !! "wishlist_name" = m !! "wishlist_name" ∧
       d !! "id" = Some (of_id (Some 3)).
Proof.
  intros m.
  apply (proj1 serialize_deserialize_data_keys m
           (Wishlist.mk (Some 3) (PInt 1) PNone)).
  reflexivity.
Defined.

(** ** The session: more facts *)

Lemma with_object_wf (s : Session) (self : ref) (e e' : entity) :
  session_wf s → objects s !! self = Some e →
  tablename e' = tablename e → pk e' = pk e →
  session_wf (with_object self e' s).
Proof. apply update_object_wf. Qed.

Lemma with_object_flushable (s : Session) (self : ref) (e' : entity) :
  flushable s → columns_ok e' = true → flushable (with_object self e' s).
Proof.
  intros Hfl Hok k r e. cbn. intros Hk.
  destruct (decide (r = self)) as [->|Hne].
  - rewrite lookup_insert_eq. by intros [= <-].
  - rewrite lookup_insert_ne by done. by apply (Hfl k r).
Qed.

Lemma on_wishlist_deserialize (s : Session) (self : ref) (w : Wishlist.t)
    (data : pyval) :
  objects s !! self = Some (AWishlist w) →
  on_wishlist self (Wishlist.deserialize data) s
  = ((Wishlist.deserialize data w).1,
     with_object self (AWishlist (Wishlist.deserialize data w).2) s).
Proof.
  intros He. unfold on_wishlist. rewrite He.
  by destruct (Wishlist.deserialize data w).
Qed.

Lemma on_item_deserialize (s : Session) (self : ref) (i : Item.t)
    (data wid : pyval) :
  objects s !! self = Some (AnItem i) →
  on_item self (Item.deserialize data wid) s
  = ((Item.deserialize data wid i).1,
     with_object self (AnItem (Item.deserialize data wid i).2) s).
Proof.
  intros He. unfold on_item. rewrite He.
  by destruct (Item.deserialize data wid i).
Qed.

(** A commit in a session with nothing pending, nothing out of step and
    nothing uncommitted changes nothing. *)
Lemma commit_clean (s : Session) :
  session_wf s → quiescent s → clean s → commit s = (Ok tt, s).
Proof.
  intros Hwf (Hn & Hd & Ha) [Hs Hc]. unfold commit, bind.
  rewrite flush_synced by done. cbn. f_equal.
  destruct s; cbn in *. by subst.
Qed.

(** Saving an instance the session holds, after its attributes were
    assigned: the row takes the instance's values. *)
Lemma save_after_assignment (s : Session) (self : ref) (t : table) (i : Z)
    (e e' : entity) :
  session_wf s → quiescent s → flushable s →
  persisted self t i s → objects s !! self = Some e →
  tablename e' = tablename e → pk e' = pk e → columns_ok e' = true →
  ∃ s', Model.save self (with_object self e' s) = (Ok tt, s') ∧
        rows s' !! (t, i) = Some e' ∧ objects s' !! self = Some e' ∧
        committed s' = rows s' ∧ quiescent s' ∧
        Model.get t i s' = (Ok (Some self), s').
Proof.
  intros Hwf Hq Hfl Hk He Ht Hp Hok.
  set (s1 := with_object self e' s).
  assert (session_wf s1) as Hwf1 by by eapply with_object_wf.
  assert (flushable s1) as Hfl1 by by apply with_object_flushable.
  assert (quiescent s1) as Hq1 by done.
  eexists. split; [by apply (save_attached s1 self (t, i))|].
  split; [|split; [|split; [done|split]]].
  - rewrite commit_quiescent_rows by done. unfold persisted in Hk. cbn.
    rewrite Hk. by rewrite lookup_insert_eq.
  - cbn. by rewrite lookup_insert_eq.
  - by apply commit_quiescent_quiescent.
  - apply get_attached; [| by apply commit_quiescent_quiescent | | done].
    + by apply commit_rows_wf, flushed_wf, write_updates_wf.
    + apply (write_updates_synced s1); [done | apply Hq].
Qed.

(** ** [deserialize] and [save] together *)

(** X6: the update path: [deserialize] of a complete body on a persisted
    instance touches no row, and the [save] that follows writes the body's
    values to the instance's row, under the id it had; [get] still returns
    the same instance. *)
Theorem deserialize_then_save_updates_row :
  (∀ s self i w m c n,
      session_wf s → quiescent s → flushable s →
      persisted self wishlists i s → objects s !! self = Some (AWishlist w) →
      m !! "customer_id" = Some c → m !! "wishlist_name" = Some n →
      Wishlist.columns_ok (Wishlist.mk (Some i) c n) = true →
      ∃ s1 s',
        on_wishlist self (Wishlist.deserialize (PDict m)) s = (Ok tt, s1) ∧
        rows s1 = rows s ∧
        Model.save self s1 = (Ok tt, s') ∧
        rows s' !! (wishlists, i) = Some (AWishlist (Wishlist.mk (Some i) c n)) ∧
        committed s' = rows s' ∧
        Model.get wishlists i s' = (Ok (Some self), s')) ∧
  (∀ s self i it m wid p n d,
      session_wf s → quiescent s → flushable s →
      persisted self items i s → objects s !! self = Some (AnItem it) →
      m !! "product_id" = Some p → m !! "name" = Some n →
      m !! "description" = Some d →
      Item.columns_ok (Item.mk (Some i) wid p n d) = true →
      ∃ s1 s',
        on_item self (Item.deserialize (PDict m) wid) s = (Ok tt, s1) ∧
        rows s1 = rows s ∧
        Model.save self s1 = (Ok tt, s') ∧
        rows s' !! (items, i) = Some (AnItem (Item.mk (Some i) wid p n d)) ∧
        committed s' = rows s' ∧
        Model.get items i s' = (Ok (Some self), s')).
Proof.
  split.
  - intros s self i w m c n Hwf Hq Hfl Hk He Hc Hn Hok.
    destruct (wf_identity s Hwf _ _ Hk) as (e & He' & _ & Hp).
    assert (e = AWishlist w) as -> by congruence. cbn in Hp.
    rewrite (on_wishlist_deserialize s self w) by done.
    rewrite wishlist_deserialize_cases, Hc, Hn. cbn.
    destruct (save_after_assignment s self wishlists i (AWishlist w)
                (AWishlist (Wishlist.mk (Some i) c n)))
      as (s' & Hsave & Hrow & _ & Hcom & _ & Hget); try done.
    exists (with_object self (AWishlist (Wishlist.mk (Some i) c n)) s), s'.
    unfold Wishlist.set_wishlist_name, Wishlist.set_customer_id. cbn.
    rewrite Hp. by split_and!.
  - intros s self i it m wid p n d Hwf Hq Hfl Hk He Hp Hn Hd Hok.
    destruct (wf_identity s Hwf _ _ Hk) as (e & He' & _ & Hpk).
    assert (e = AnItem it) as -> by congruence. cbn in Hpk.
    rewrite (on_item_deserialize s self it) by done.
    rewrite item_deserialize_cases, Hp, Hn, Hd. cbn.
    destruct (save_after_assignment s self items i (AnItem it)
                (AnItem (Item.mk (Some i) wid p n d)))
      as (s' & Hsave & Hrow & _ & Hcom & _ & Hget); try done.
    exists (with_object self (AnItem (Item.mk (Some i) wid p n d)) s), s'.
    unfold Item.set_description, Item.set_name, Item.set_product_id,
      Item.set_wishlist_id. cbn.
    rewrite Hpk. by split_and!.
Qed.

Lemma deserialize_then_save_updates_row_witness :
  (let s := (one_saved empty_session).2 in
   let m : gmap string pyval :=
     <["customer_id" := PInt 7]> (<["wishlist_name" := PStr "new"]> ∅) in
   ∃ s1 s',
     on_wishlist 1%positive (Wishlist.deserialize (PDict m)) s = (Ok tt, s1) ∧
     rows s1 = rows s ∧
     Model.save 1%positive s1 = (Ok tt, s') ∧
     rows s' !! (wishlists, 1)
       = Some (AWishlist (Wishlist.mk (Some 1) (PInt 7) (PStr "new"))) ∧
     committed s' = rows s' ∧
     Model.get wishlists 1 s' = (Ok (Some 1%positive), s')) ∧
  (let s := (wishlist_and_item_saved empty_session).2 in
   let m : gmap string pyval :=
     <["product_id" := PInt 31]> (<["name" := PStr "cup"]>
     (<["description" := PStr "blue"]> ∅)) in
   ∃ s1 s',
     on_item 2%positive (Item.deserialize (PDict m) (PInt 1)) s = (Ok tt, s1) ∧
     rows s1 = rows s ∧
     Model.save 2%positive s1 = (Ok tt, s') ∧
     rows s' !! (items, 1)
       = Some (AnItem (Item.mk (Some 1) (PInt 1) (PInt 31) (PStr "cup")
                               (PStr "blue"))) ∧
     committed s' = rows s' ∧
     Model.get items 1 s' = (Ok (Some 2%positive), s')).
Proof.
  split.
  - intros s m.
    apply (proj1 deserialize_then_save_updates_row s 1%positive 1
             (Wishlist.mk (Some 1) (PInt 5) (PStr "gifts")) m (PInt 7) (PStr "new")).
    + apply session_wf_b_correct. vm_compute. reflexivity.
    + done.
    + apply flushable_b_correct. vm_compute. reflexivity.
    + vm_compute. reflexivity.
    + vm_compute. reflexivity.
    + reflexivity.
    + reflexivity.
    + reflexivity.
  - intros s m.
    apply (proj2 deserialize_then_save_updates_row s 2%positive 1
             (Item.mk (Some 1) (PInt 1) (PInt 30) (PStr "mug") PNone) m
             (PInt 1) (PInt 31) (PStr "cup") (PStr "blue")).
    + apply session_wf_b_correct. vm_compute. reflexivity.
    + done.
    + apply flushable_b_correct. vm_compute. reflexivity.
    + vm_compute. reflexivity.
    + vm_compute. reflexivity.
    + reflexivity.
    + reflexivity.
    + reflexivity.
    + reflexivity.
Defined.

(** The rows a [save] of a new instance leaves, besides the new one: what
    the commit writes for the persistent instances. *)
Lemma save_fresh_other_rows (s : Session) (self : ref) (e : entity) (k : key) :
  session_wf s → quiescent s →
  let i := next_id s (tablename e) in
  let s' := commit_rows (flushed (register self (set_pk (Some i) e)
                                           (tablename e, i)
                                           (write_updates (with_new [self] s)))) in
  k ≠ (tablename e, i) →
  rows s' !! k = match identity_map s !! k with
                 | Some r => objects s !! r
                 | None => rows s !! k
                 end.
Proof.
  intros Hwf (Hn & Hd & Ha) i s' Hne. cbn. rewrite lookup_insert_ne by done.
  pose proof (write_updates_rows (with_new [self] s) k (with_new_wf _ _ Hwf)) as H.
  cbn in H. rewrite H. destruct (identity_map s !! k) as [r|]; [|done].
  rewrite bool_decide_eq_false_2; [done|]. rewrite Hd. by intros ?%elem_of_nil.
Qed.

(** X7: a [deserialize] that raised still reaches the store.  On a
    persisted Wishlist, a body with a [customer_id] that fits the 64-bit
    integer column but without [wishlist_name] raises after the
    [customer_id] was assigned; no row has changed then, but the next
    [save] of any other, new entity commits the session and with it the
    half-made change. *)
Theorem failed_deserialize_is_committed_by_next_save :
  ∀ s self i w m c other e,
    session_wf s → quiescent s → flushable s →
    persisted self wishlists i s → objects s !! self = Some (AWishlist w) →
    m !! "customer_id" = Some (PInt c) → - 2 ^ 63 ≤ c < 2 ^ 63 →
    m !! "wishlist_name" = None →
    objects s !! other = Some e → pk e = None → columns_ok e = true →
    ∃ s1 s',
      on_wishlist self (Wishlist.deserialize (PDict m)) s
      = (Raise (DataValidationError "Invalid wishlist: missing wishlist_name"), s1) ∧
      rows s1 = rows s ∧
      Model.save other s1 = (Ok tt, s') ∧
      rows s' !! (wishlists, i)
        = Some (AWishlist (Wishlist.set_customer_id (PInt c) w)) ∧
      committed s' = rows s'.
Proof.
  intros s self i w m c other e Hwf Hq Hfl Hk He Hc Hr Hn Ho Hpk Hok.
  destruct (wf_identity s Hwf _ _ Hk) as (e0 & He0 & _ & Hp).
  assert (e0 = AWishlist w) as -> by congruence. cbn in Hp.
  assert (other ≠ self) as Hne.
  { intros ->. rewrite He in Ho. injection Ho as <-. cbn in Hpk. congruence. }
  rewrite (on_wishlist_deserialize s self w) by done.
  rewrite wishlist_deserialize_cases, Hc, Hn. cbn.
  set (w' := Wishlist.set_customer_id (PInt c) w).
  set (s1 := with_object self (AWishlist w') s).
  assert (columns_ok (AWishlist w') = true) as Hok'.
  { pose proof (Hfl _ _ _ Hk He) as H. cbn in H |- *.
    unfold Wishlist.columns_ok in *. cbn.
    apply andb_true_iff in H as [_ ->].
    by rewrite bool_decide_eq_true_2. }
  assert (session_wf s1) as Hwf1 by by apply (with_object_wf s self (AWishlist w)).
  assert (flushable s1) as Hfl1 by by apply with_object_flushable.
  assert (objects s1 !! other = Some e) as Ho1.
  { cbn. by rewrite lookup_insert_ne. }
  destruct (save_fresh_state s1 other e) as (Hsave & _); try done.
  exists s1. eexists. split; [done|]. split; [done|]. split; [exact Hsave|].
  split; [|done].
  rewrite (save_fresh_other_rows s1 other e (wishlists, i)); try done.
  - change (identity_map s1) with (identity_map s). unfold persisted in Hk.
    rewrite Hk. cbn. by rewrite lookup_insert_eq.
  - intros Heq. pose proof (next_id_free s1 (tablename e) Hwf1) as Hfree.
    rewrite <-Heq in Hfree. cbn in Hfree.
    destruct (wf_persistent s Hwf (wishlists, i)) as [e1 He1]; [by eauto|].
    congruence.
Qed.

Lemma failed_deserialize_is_committed_by_next_save_witness :
  let s := (construct (AWishlist (Wishlist.mk None (PInt 9) PNone))
                      (one_saved empty_session).2).2 in
  let m : gmap string pyval := <["customer_id" := PInt 7]> ∅ in
  ∃ s1 s',
    on_wishlist 1%positive (Wishlist.deserialize (PDict m)) s
    = (Raise (DataValidationError "Invalid wishlist: missing wishlist_name"), s1) ∧
    rows s1 = rows s ∧
    Model.save 2%positive s1 = (Ok tt, s') ∧
    rows s' !! (wishlists, 1)
      = Some (AWishlist (Wishlist.set_customer_id (PInt 7)
                           (Wishlist.mk (Some 1) (PInt 5) (PStr "gifts")))) ∧
    committed s' = rows s'.
Proof.
  intros s m.
  apply (failed_deserialize_is_committed_by_next_save s 1%positive 1
           (Wishlist.mk (Some 1) (PInt 5) (PStr "gifts")) m 7 2%positive
           (AWishlist (Wishlist.mk None (PInt 9) PNone))).
  - apply session_wf_b_correct. vm_compute. reflexivity.
  - done.
  - apply flushable_b_correct. vm_compute. reflexivity.
  - vm_compute. reflexivity.
  - vm_compute. reflexivity.
  - reflexivity.
  - lia.
  - reflexivity.
  - vm_compute. reflexivity.
  - reflexivity.
  - reflexivity.
Defined.

Lemma construct_synced (e : entity) (s : Session) :
  session_wf s → synced s → synced (construct e s).2.
Proof.
  intros Hwf Hs. destruct (construct_spec e s) as (r & Hr & ->).
  intros k r'. cbn. intros Hk.
  destruct (wf_identity s Hwf k r' Hk) as (e0 & He0 & _).
  rewrite lookup_insert_ne by congruence. by apply Hs.
Qed.

(** ** [save] again, and what it leaves alone *)

(** After a [save] that returned, the instance has a nonzero id or is in
    the identity map. *)
Lemma save_Ok_holds (s s' : Session) (self : ref) :
  session_wf s → quiescent s → Model.save self s = (Ok tt, s') →
  ∃ e', objects s' !! self = Some e' ∧
        (truthy_id (pk e') = true ∨ ∃ k, identity_map s' !! k = Some self).
Proof.
  intros Hwf Hq. unfold Model.save, bind at 1, getattr_id.
  destruct (objects s !! self) as [e|] eqn:He; [|done].
  pose proof Hq as (Hn & Hd & Ha).
  assert (∀ s0, commit s = (Ok tt, s0) → objects s0 = objects s ∧
                identity_map s0 = identity_map s) as Hcommit.
  { intros s0 (s1 & (Ha0 & Hok & s2 & H2 & ->)%flush_Ok_inv & ->)%commit_Ok_inv.
    rewrite Hn in H2. injection H2 as <-.
    unfold flush_deletes. cbn. by rewrite Hd. }
  destruct (truthy_id (pk e)) eqn:Hid; cbn.
  { unfold bind, ret. intros [Ho _]%Hcommit. exists e. rewrite Ho. by eauto. }
  unfold bind, session_add. destruct (attached self s) eqn:Hat; cbn.
  { intros [Ho Hi]%Hcommit. exists e. rewrite Ho, Hi. split; [done|].
    right. by apply attached_true. }
  rewrite Hn. cbn.
  intros (s1 & (Ha0 & Hok & s2 & H2 & ->)%flush_Ok_inv & ->)%commit_Ok_inv.
  cbn in H2. destruct (insert_row _ _) as [s3|] eqn:H3; [|done].
  injection H2 as ->.
  apply insert_row_inv in H3 as (e' & He' & Hok' & Hi & ->).
  unfold flush_deletes. cbn. rewrite Hd. cbn.
  eexists. rewrite lookup_insert_eq. split; [done|]. right.
  eexists. by rewrite lookup_insert_eq.
Qed.

(** X8: [save] is idempotent: a second [save] of the same instance, right
    after one that returned, returns too and leaves the session and the
    store exactly as the first one left them; no second row is inserted. *)
Theorem save_twice_is_save_once (s s' : Session) (self : ref) :
  session_wf s → quiescent s →
  Model.save self s = (Ok tt, s') → Model.save self s' = (Ok tt, s').
Proof.
  intros Hwf Hq Hsave.
  destruct (save_preserves s s' self) as (Hwf' & Hq' & Hs' & Hc'); try done.
  destruct (save_Ok_holds s s' self) as (e' & He' & [Hid|[k Hk]]); try done.
  - rewrite (save_truthy s' self e') by done. by apply commit_clean.
  - rewrite (save_attached s' self k); try done;
      [|by apply synced_flushable].
    rewrite <-commit_quiescent; try done; [|by apply synced_flushable].
    by apply commit_clean.
Qed.

Lemma save_twice_is_save_once_witness :
  let s := (construct (AWishlist (Wishlist.mk None (PInt 5) (PStr "gifts")))
                      empty_session).2 in
  let s' := (Model.save 1%positive s).2 in
  Model.save 1%positive s' = (Ok tt, s').
Proof.
  intros s s'. apply (save_twice_is_save_once s s' 1%positive).
  - apply session_wf_b_correct. vm_compute. reflexivity.
  - done.
  - vm_compute. reflexivity.
Defined.

(** X9: what the [save] of a new instance leaves alone.  In a session
    whose instances are in step with their rows, the new id is above every
    id the table holds, the id the store gives next is the one after it,
    and no other row, no other instance and no other table's next id
    changes. *)
Theorem save_fresh_frame (s : Session) (self : ref) (e : entity) :
  session_wf s → quiescent s → synced s →
  objects s !! self = Some e → pk e = None → columns_ok e = true →
  ∃ s' i,
    Model.save self s = (Ok tt, s') ∧
    objects s' !! self = Some (set_pk (Some i) e) ∧
    (∀ j, is_Some (rows s !! (tablename e, j)) → j < i) ∧
    (∀ k, k ≠ (tablename e, i) → rows s' !! k = rows s !! k) ∧
    (∀ r, r ≠ self → objects s' !! r = objects s !! r) ∧
    next_id s' (tablename e) = i + 1 ∧
    (∀ t, t ≠ tablename e → next_id s' t = next_id s t).
Proof.
  intros Hwf Hq Hs He Hpk Hok.
  assert (flushable s) as Hfl by by apply synced_flushable.
  destruct (save_fresh_state s self e) as (Hsave & _); try done.
  set (i := next_id s (tablename e)) in *.
  match type of Hsave with _ = (_, ?x) => set (s' := x) in * end.
  assert (∀ k, k ≠ (tablename e, i) → rows s' !! k = rows s !! k) as Hrows.
  { intros k Hne.
    transitivity (match identity_map s !! k with
                  | Some r => objects s !! r
                  | None => rows s !! k
                  end); [exact (save_fresh_other_rows s self e k Hwf Hq Hne)|].
    destruct (identity_map s !! k) as [r|] eqn:Hk; [|done]. by apply Hs. }
  assert (is_Some (rows s' !! (tablename e, i))) as Hnew.
  { unfold s'. cbn. rewrite lookup_insert_eq. by eauto. }
  exists s', i. split; [exact Hsave|].
  split; [|split; [|split; [done|split; [|split]]]].
  - unfold s'. cbn. by rewrite lookup_insert_eq.
  - intros j. apply next_id_above.
  - intros r Hne. unfold s'. cbn. by rewrite lookup_insert_ne.
  - apply next_id_unique.
    + intros j Hj. destruct (decide (j = i)) as [->|Hne]; [lia|].
      rewrite Hrows in Hj by congruence.
      apply next_id_above in Hj. fold i in Hj. lia.
    + left. by replace (i + 1 - 1) with i by lia.
  - intros t Hne. apply next_id_ext. intros j. by rewrite Hrows by congruence.
Qed.

Lemma save_fresh_frame_witness :
  let e := AnItem (Item.mk None (PInt 1) (PInt 30) (PStr "mug") PNone) in
  let s := (construct e (one_saved empty_session).2).2 in
  let self := 2%positive in
  ∃ s' i,
    Model.save self s = (Ok tt, s') ∧
    objects s' !! self = Some (set_pk (Some i) e) ∧
    (∀ j, is_Some (rows s !! (tablename e, j)) → j < i) ∧
    (∀ k, k ≠ (tablename e, i) → rows s' !! k = rows s !! k) ∧
    (∀ r, r ≠ self → objects s' !! r = objects s !! r) ∧
    next_id s' (tablename e) = i + 1 ∧
    (∀ t, t ≠ tablename e → next_id s' t = next_id s t).
Proof.
  intros e s self. apply (save_fresh_frame s self e).
  - apply session_wf_b_correct. vm_compute. reflexivity.
  - done.
  - apply (construct_synced e (one_saved empty_session).2).
    + apply session_wf_b_correct. vm_compute. reflexivity.
    + apply (proj1 (proj2 (proj2 (save_preserves
               (construct (AWishlist (Wishlist.mk None (PInt 5) (PStr "gifts")))
                          empty_session).2
               (one_saved empty_session).2 1%positive
               (construct_wf _ _ empty_session_wf) (conj eq_refl (conj eq_refl eq_refl))
               eq_refl)))).
  - vm_compute. reflexivity.
  - reflexivity.
  - reflexivity.
Defined.






(** ** [delete], and [save] after it *)

(** X11: what [delete] of a persisted instance leaves alone, in a session
    whose instances are in step with their rows: every other row is as it
    was, and every instance in memory, the deleted one too, keeps its
    attributes, its id among them; the session no longer holds the deleted
    instance. *)
Theorem delete_frame (s : Session) (self : ref) (t : table) (i : Z) :
  session_wf s → quiescent s → synced s →
  persisted self t i s → i ≠ 0 →
  ∃ s', Model.delete self s = (Ok tt, s') ∧
        (∀ k, k ≠ (t, i) → rows s' !! k = rows s !! k) ∧
        objects s' = objects s ∧
        unattached self s'.
Proof.
  intros Hwf Hq Hs Hk Hi.
  assert (flushable s) as Hfl by by apply synced_flushable.
  eexists. split; [by apply delete_attached_truthy|].
  split_and!; [|done|].
  - intros k Hne. cbn. rewrite lookup_delete_ne by done.
    change (updates (with_deleted [self] s) ∪ rows s)
      with (rows (write_updates (with_deleted [self] s))).
    rewrite write_updates_rows by by apply with_deleted_wf.
    cbn. destruct (identity_map s !! k) as [r|] eqn:Hk'; [|done].
    case_bool_decide; [done|]. by apply Hs.
  - intros k. cbn. intros [Hne Hk']%lookup_delete_Some.
    apply Hne. by apply (identity_map_inj s _ _ self).
Qed.

(** X12: [save] does not undo [delete].  After the [delete] of a persisted
    instance the instance still carries its id, so the [save] that follows
    is the commit alone: it returns, the row stays deleted and [get] with
    that id returns nothing. *)
Theorem delete_then_save_stays_deleted (s : Session) (self : ref) (t : table)
    (i : Z) :
  session_wf s → quiescent s → flushable s →
  persisted self t i s → i ≠ 0 →
  ∃ s', Model.delete self s = (Ok tt, s') ∧
        Model.save self s' = (Ok tt, s') ∧
        rows s' !! (t, i) = None ∧ committed s' !! (t, i) = None ∧
        Model.get t i s' = (Ok None, s').
Proof.
  intros Hwf Hq Hfl Hk Hi.
  destruct (wf_identity s Hwf _ _ Hk) as (e & He & _ & Hp). cbn in Hp.
  eexists. split; [by apply delete_attached_truthy|].
  destruct (deleted_state s self t i) as (Hwf' & Hq' & Hs' & Hc' & Hk' & Hr');
    try done.
  { apply updates_columns_ok; [by apply with_deleted_wf | done]. }
  split_and!; try done.
  - rewrite (save_truthy _ self e); [by apply commit_clean | done |].
    rewrite Hp. cbn. by rewrite (proj2 (Z.eqb_neq i 0)).
  - by apply get_absent.
Qed.

Lemma one_saved_synced : synced (one_saved empty_session).2.
Proof.
  apply (proj1 (proj2 (proj2 (save_preserves
           (construct (AWishlist (Wishlist.mk None (PInt 5) (PStr "gifts")))
                      empty_session).2
           (one_saved empty_session).2 1%positive
           (construct_wf _ _ empty_session_wf) (conj eq_refl (conj eq_refl eq_refl))
           eq_refl)))).
Qed.

Lemma delete_frame_witness :
  let s := (one_saved empty_session).2 in
  ∃ s', Model.delete 1%positive s = (Ok tt, s') ∧
        (∀ k, k ≠ (wishlists, 1) → rows s' !! k = rows s !! k) ∧
        objects s' = objects s ∧
        unattached 1%positive s'.
Proof.
  intros s. apply (delete_frame s 1%positive wishlists 1).
  - apply session_wf_b_correct. vm_compute. reflexivity.
  - done.
  - apply one_saved_synced.
  - vm_compute. reflexivity.
  - done.
Defined.

Lemma delete_then_save_stays_deleted_witness :
  let s := (one_saved empty_session).2 in
  ∃ s', Model.delete 1%positive s = (Ok tt, s') ∧
        Model.save 1%positive s' = (Ok tt, s') ∧
        rows s' !! (wishlists, 1) = None ∧ committed s' !! (wishlists, 1) = None ∧
        Model.get wishlists 1 s' = (Ok None, s').
Proof.
  intros s. apply (delete_then_save_stays_deleted s 1%positive wishlists 1).
  - apply session_wf_b_correct. vm_compute. reflexivity.
  - done.
  - apply flushable_b_correct. vm_compute. reflexivity.
  - vm_compute. reflexivity.
  - done.
Defined.

(** ** [get] *)

Lemma load_keeps (k : key) (s : Session) :
  committed (load k s).2 = committed s ∧ rows (load k s).2 = rows s.
Proof.
  unfold load. destruct (identity_map s !! k); [done|].
  by destruct (rows s !! k).
Qed.

(** What [get] does in a session with nothing pending. *)
Lemma get_spec (s : Session) (t : table) (i : Z) :
  session_wf s → quiescent s → flushable s →
  ∃ o s', Model.get t i s = (Ok o, s') ∧
          session_wf s' ∧ quiescent s' ∧
          (o = None ↔ rows s !! (t, i) = None) ∧
          (∀ r, o = Some r → identity_map s' !! (t, i) = Some r) ∧
          Model.get t i s' = (Ok o, s') ∧
          committed s' = committed s ∧
          (synced s → rows s' = rows s ∧
                      ∀ r, o = Some r → objects s' !! r = rows s !! (t, i)).
Proof.
  intros Hwf Hq Hfl. unfold Model.get at 1, query_get.
  pose proof Hq as (Hn & Hd & Ha). unfold bind. rewrite flush_quiescent by done.
  set (s1 := flushed (write_updates s)).
  assert (session_wf s1) as Hwf1 by by apply flushed_wf, write_updates_wf.
  assert (synced s1) as Hs1 by by apply flushed_synced, write_updates_synced.
  assert (quiescent s1) as Hq1 by by split_and!.
  assert (is_Some (rows s1 !! (t, i)) ↔ is_Some (rows s !! (t, i))) as Hrow
    by by apply write_updates_is_Some.
  destruct (rows s1 !! (t, i)) as [e|] eqn:He.
  - destruct (load_row (t, i) e s1)
      as (r & s2 & Hl & Hwf2 & Hs2 & Hr2 & Hn2 & Hd2 & _ & Hk2 & Ho2 & Ha2);
      try done.
    pose proof (load_keeps (t, i) s1) as (Hc & _). rewrite Hl in Hc. cbn in Hc.
    assert (quiescent s2) as Hq2.
    { destruct Hq1 as (? & ? & ?). split; [congruence|]. split; congruence. }
    exists (Some r), s2. rewrite Hl.
    split; [done|]. split; [done|]. split; [done|].
    split.
    { split; [done|]. intros Hnone. destruct (proj1 Hrow) as [? ?]; [by eauto|].
      congruence. }
    split; [by intros r' [= <-]|].
    split; [by apply get_attached|]. split; [done|].
    intros Hs.
    assert (rows s1 = rows s) as Hr1 by by apply write_updates_synced_rows.
    split; [congruence|].
    intros r' [= <-]. rewrite Ho2, <-He. by rewrite Hr1.
  - assert (rows s !! (t, i) = None) as Hnone.
    { apply eq_None_not_Some. intros H%Hrow. by destruct H. }
    assert (identity_map s1 !! (t, i) = None) as Hk1.
    { apply eq_None_not_Some. intros H%(wf_persistent s1 Hwf1).
      rewrite He in H. by destruct H. }
    exists None, s1. unfold load at 1. rewrite Hk1, He.
    split; [done|]. split; [done|]. split; [done|].
    split; [by split|]. split; [done|].
    split; [by apply get_absent|].
    split; [done|].
    intros Hs. split; [by apply write_updates_synced_rows | done].
Qed.


(** X14: [get] reads and does not write.  In a session whose instances are
    in step with their rows, [get(id)] for an existing row returns an
    instance that holds the row's values, also when the instance has to be
    built from the row, and it changes no row and commits nothing. *)
Theorem get_reads_row (s : Session) (t : table) (i : Z) (e : entity) :
  session_wf s → quiescent s → synced s → rows s !! (t, i) = Some e →
  ∃ r s', Model.get t i s = (Ok (Some r), s') ∧
          objects s' !! r = Some e ∧
          rows s' = rows s ∧ committed s' = committed s.
Proof.
  intros Hwf Hq Hs He.
  destruct (get_spec s t i)
    as (o & s' & Hg & _ & _ & Hiff & _ & _ & Hc & Hsy); try done.
  { by apply synced_flushable. }
  destruct (Hsy Hs) as [Hr Ho].
  destruct o as [r|]; [|rewrite (proj1 Hiff eq_refl) in He; done].
  exists r, s'. split_and!; try done. by rewrite (Ho r eq_refl).
Qed.


Lemma get_reads_row_witness :
  let s := next_request (one_saved empty_session).2 in
  let e := AWishlist (Wishlist.mk (Some 1) (PInt 5) (PStr "gifts")) in
  ∃ r s', Model.get wishlists 1 s = (Ok (Some r), s') ∧
          objects s' !! r = Some e ∧
          rows s' = rows s ∧ committed s' = committed s.
Proof.
  intros s e. apply (get_reads_row s wishlists 1 e).
  - apply session_wf_b_correct. vm_compute. reflexivity.
  - done.
  - intros k r. cbn. by rewrite lookup_empty.
  - vm_compute. reflexivity.
Defined.



Example get_or_404_examples :
  let s := (one_saved empty_session).2 in
  get_or_404 1 s = (Ok (inr 1%positive), s) ∧
  get_or_404 7 s = (Ok (inl NotFound), s).
Proof. split; by vm_compute. Qed.

(** ** [all] and [find_by_name] *)

(** X16: [all()] returns, without repetition, exactly the instances of the
    rows of the class's table: every row the table had has its instance in
    the result, every returned instance is of that class and is the one the
    session holds for its row, and no row is added or removed by the
    call. *)
Theorem all_returns_every_row (s : Session) (t : table) :
  session_wf s → quiescent s → flushable s →
  ∃ rs s',
    Model.all t s = (Ok rs, s') ∧
    NoDup rs ∧
    (∀ r, r ∈ rs ↔ ∃ i, persisted r t i s') ∧
    (∀ i, is_Some (rows s !! (t, i)) → ∃ r, r ∈ rs ∧ persisted r t i s') ∧
    (∀ r, r ∈ rs → ∃ e, objects s' !! r = Some e ∧ tablename e = t) ∧
    (∀ k, is_Some (rows s' !! k) ↔ is_Some (rows s !! k)) ∧
    (synced s → rows s' = rows s).
Proof.
  intros Hwf Hq Hfl. unfold Model.all.
  destruct (query_all_spec (mkQuery t (λ _, true)) s)
    as (rs & s' & Hrun & Hwf' & Hs' & Hq' & Hrows & Hnd & Hin & Htot); try done.
  assert (∀ i, (t, i) ∈ select (mkQuery t (λ _, true)) s' ↔
               is_Some (rows s' !! (t, i))) as Hsel.
  { intros i. rewrite select_elem_of. split.
    - intros (e & He & _). by eauto.
    - intros [e He]. by exists e. }
  assert (∀ r, r ∈ rs ↔ ∃ i, persisted r t i s') as Hiff.
  { intros r. rewrite Hin. split.
    - intros ([t' i] & (e & He & Ht & _)%select_elem_of & Hk).
      cbn in Ht. subst t'. by exists i.
    - intros [i Hk]. exists (t, i). split; [|done].
      apply Hsel. apply (wf_persistent s' Hwf'). by eauto. }
  exists rs, s'. split_and!; try done.
  - intros i Hi.
    assert (is_Some (rows s' !! (t, i))) as Hi'.
    { rewrite Hrows. by apply (write_updates_is_Some s (t, i)). }
    destruct (Htot (t, i)) as [r Hk]; [by apply Hsel|].
    exists r. split; [|done]. apply Hiff. by exists i.
  - intros r [i Hk]%Hiff.
    destruct (wf_identity s' Hwf' _ _ Hk) as (e & He & Ht & _). by exists e.
  - intros k. rewrite Hrows. by apply write_updates_is_Some.
  - intros Hs. rewrite Hrows. by apply write_updates_synced_rows.
Qed.

Lemma all_returns_every_row_witness :
  let s := (wishlist_and_item_saved empty_session).2 in
  ∃ rs s',
    Model.all items s = (Ok rs, s') ∧
    NoDup rs ∧
    (∀ r, r ∈ rs ↔ ∃ i, persisted r items i s') ∧
    (∀ i, is_Some (rows s !! (items, i)) → ∃ r, r ∈ rs ∧ persisted r items i s') ∧
    (∀ r, r ∈ rs → ∃ e, objects s' !! r = Some e ∧ tablename e = items) ∧
    (∀ k, is_Some (rows s' !! k) ↔ is_Some (rows s !! k)) ∧
    (synced s → rows s' = rows s).
Proof.
  intros s. apply (all_returns_every_row s items).
  - apply session_wf_b_correct. vm_compute. reflexivity.
  - done.
  - apply flushable_b_correct. vm_compute. reflexivity.
Defined.

Example all_examples :
  let s := (wishlist_and_item_saved empty_session).2 in
  Model.all items s = (Ok [2%positive], s) ∧
  Model.all wishlists s = (Ok [1%positive], s) ∧
  Model.all items empty_session = (Ok [], empty_session).
Proof. split_and!; by vm_compute. Qed.

Lemma name_eq_true (name : string) (e : entity) :
  name_eq name e = true ↔ ∃ i, e = AnItem i ∧ Item.name i = PStr name.
Proof.
  split.
  - destruct e as [i|w]; [|done]. cbn.
    destruct (Item.name i) eqn:Hn; try done.
    intros ->%bool_decide_eq_true. by exists i.
  - intros (i & -> & Hn). cbn. rewrite Hn. by apply bool_decide_eq_true.
Qed.

(** X17: evaluating [find_by_name(name)] returns, without repetition,
    exactly the instances of the Item rows whose [name] is the given
    string: every returned instance holds such a row's values, and every
    such row has its instance in the result. *)
Theorem find_by_name_exact (s : Session) (name : string) :
  session_wf s → quiescent s → flushable s →
  ∃ rs s',
    query_all (find_by_name name) s = (Ok rs, s') ∧
    NoDup rs ∧
    (synced s → rows s' = rows s) ∧
    (∀ r, r ∈ rs ↔
          ∃ i it, persisted r items i s' ∧
                  rows s' !! (items, i) = Some (AnItem it) ∧
                  Item.name it = PStr name) ∧
    (∀ r, r ∈ rs →
          ∃ i it, objects s' !! r = Some (AnItem it) ∧
                  Item.id it = Some i ∧ Item.name it = PStr name) ∧
    (∀ i it, rows s' !! (items, i) = Some (AnItem it) →
             Item.name it = PStr name →
             ∃ r, r ∈ rs ∧ persisted r items i s').
Proof.
  intros Hwf Hq Hfl.
  destruct (query_all_spec (find_by_name name) s)
    as (rs & s' & Hrun & Hwf' & Hs' & Hq' & Hrows & Hnd & Hin & Htot); try done.
  assert (∀ r, r ∈ rs ↔
            ∃ i it, persisted r items i s' ∧
                    rows s' !! (items, i) = Some (AnItem it) ∧
                    Item.name it = PStr name) as Hiff.
  { intros r. rewrite Hin. split.
    - intros ([t i] & (e & He & Ht & (it & -> & Hc)%name_eq_true)%select_elem_of & Hk).
      cbn in Ht. subst t. by exists i, it.
    - intros (i & it & Hk & He & Hc). exists (items, i). split; [|done].
      apply select_elem_of. exists (AnItem it). split_and!; [done..|].
      apply name_eq_true. by exists it. }
  exists rs, s'. split_and!; try done.
  - intros Hs. rewrite Hrows. by apply write_updates_synced_rows.
  - intros r (i & it & Hk & He & Hc)%Hiff. exists i, it.
    rewrite (Hs' _ _ Hk). split_and!; [done| |done].
    by destruct (wf_rows s' Hwf' _ _ He) as (_ & ? & _).
  - intros i it He Hc.
    destruct (Htot (items, i)) as [r Hk].
    { apply select_elem_of. exists (AnItem it). split_and!; [done..|].
      apply name_eq_true. by exists it. }
    exists r. split; [|done]. apply Hiff. by exists i, it.
Qed.

Lemma find_by_name_exact_witness :
  let s := (wishlist_and_item_saved empty_session).2 in
  ∃ rs s',
    query_all (find_by_name "mug") s = (Ok rs, s') ∧
    NoDup rs ∧
    (synced s → rows s' = rows s) ∧
    (∀ r, r ∈ rs ↔
          ∃ i it, persisted r items i s' ∧
                  rows s' !! (items, i) = Some (AnItem it) ∧
                  Item.name it = PStr "mug") ∧
    (∀ r, r ∈ rs →
          ∃ i it, objects s' !! r = Some (AnItem it) ∧
                  Item.id it = Some i ∧ Item.name it = PStr "mug") ∧
    (∀ i it, rows s' !! (items, i) = Some (AnItem it) →
             Item.name it = PStr "mug" →
             ∃ r, r ∈ rs ∧ persisted r items i s').
Proof.
  intros s. apply (find_by_name_exact s "mug").
  - apply session_wf_b_correct. vm_compute. reflexivity.
  - done.
  - apply flushable_b_correct. vm_compute. reflexivity.
Defined.

Example find_by_name_examples :
  let s := (wishlist_and_item_saved empty_session).2 in
  query_all (find_by_name "mug") s = (Ok [2%positive], s) ∧
  query_all (find_by_name "Mug") s = (Ok [], s) ∧
  query_all (find_by_name "gifts") s = (Ok [], s).
Proof. split_and!; by vm_compute. Qed.

(** ** The read methods commit nothing *)

Lemma flush_inserts_committed (l : list ref) (s s' : Session) :
  flush_inserts l s = Some s' → committed s' = committed s.
Proof.
  revert s. induction l as [|r l IH]; intros s; cbn.
  { by intros [= <-]. }
  destruct (insert_row r s) as [s1|] eqn:H1; [|done].
  intros H%IH. rewrite H.
  by apply insert_row_inv in H1 as (e & _ & _ & _ & ->).
Qed.

Lemma delete_row_committed (r : ref) (s : Session) :
  committed (delete_row r s) = committed s.
Proof.
  unfold delete_row. destruct (objects s !! r) as [e|]; [|done].
  by destruct (pk e).
Qed.

Lemma flush_committed (s : Session) : committed (flush s).2 = committed s.
Proof.
  unfold flush, flush_updates. destruct (inactive s); [done|].
  case_bool_decide; cbn; [|done].
  destruct (flush_inserts (new s) (write_updates s)) as [s1|] eqn:H1; [|done].
  cbn. apply flush_inserts_committed in H1. cbn in H1. rewrite <-H1.
  unfold flush_deletes. generalize (deleted s1). intros l.
  induction l as [|r l IH]; [done|]. cbn. by rewrite delete_row_committed.
Qed.

Lemma load_all_committed (ks : list key) (s : Session) :
  committed (load_all ks s).2 = committed s.
Proof.
  revert s. induction ks as [|k ks IH]; intros s; [done|].
  cbn. unfold bind.
  pose proof (load_keeps k s) as (Hc & _).
  destruct (load k s) as [[o|x] s1] eqn:Hl; cbn in *; [|done].
  specialize (IH s1). destruct (load_all ks s1) as [[rs|x] s2]; cbn in *; congruence.
Qed.

(** X18: the read methods never commit.  Whatever the session holds and
    whether they return or raise, evaluating a query ([all],
    [find_by_name], [find_by_customer_id]), [get] and [get_or_404] leave the
    committed rows as they were: what their automatic flush writes stays
    inside the open transaction. *)
Theorem reads_commit_nothing :
  (∀ q s, committed (query_all q s).2 = committed s) ∧
  (∀ t s, committed (Model.all t s).2 = committed s) ∧
  (∀ t i s, committed (Model.get t i s).2 = committed s) ∧
  (∀ i s, committed (get_or_404 i s).2 = committed s).
Proof.
  assert (∀ q s, committed (query_all q s).2 = committed s) as Hq.
  { intros q s. unfold query_all, bind, gets.
    pose proof (flush_committed s) as Hf.
    destruct (flush s) as [[[]|x] s1]; cbn in *; [|done].
    pose proof (load_all_committed (select q s1) s1) as Hl.
    destruct (load_all (select q s1) s1) as [[rs|x] s2]; cbn in *; congruence. }
  assert (∀ t i s, committed (query_get t i s).2 = committed s) as Hg.
  { intros t i s. unfold query_get, bind.
    pose proof (flush_committed s) as Hf.
    destruct (flush s) as [[[]|x] s1]; cbn in *; [|done].
    pose proof (load_keeps (t, i) s1) as (Hc & _). congruence. }
  split_and!; [done | intros t s; apply Hq | done |].
  intros i s. unfold get_or_404, bind. specialize (Hg wishlists i s).
  by destruct (query_get wishlists i s) as [[o|x] s1].
Qed.

(** ** The invariants, method by method *)

(** X19: the model methods keep the session consistent, for values that
    fit the column declarations.  Take a well-formed session with nothing
    pending in which every instance the session holds has values its
    columns accept.  A [save] of an instance with such values, and a
    [delete], that returned leave a well-formed session again (every stored
    row carries its key as id and has values its columns accept, every
    instance the session holds has a row) with nothing pending, every such
    instance equal to its row, and nothing uncommitted; a [get] that
    returned leaves it well-formed with nothing pending.  A [deserialize]
    on any instance, whatever it is given, keeps the session well-formed. *)
Theorem methods_keep_invariants :
  (∀ s s' self e,
      session_wf s → quiescent s → flushable s →
      objects s !! self = Some e → columns_ok e = true →
      Model.save self s = (Ok tt, s') →
      session_wf s' ∧ quiescent s' ∧ clean s') ∧
  (∀ s s' self,
      session_wf s → quiescent s → flushable s →
      Model.delete self s = (Ok tt, s') →
      session_wf s' ∧ quiescent s' ∧ clean s') ∧
  (∀ s s' t i o,
      session_wf s → quiescent s → flushable s →
      Model.get t i s = (Ok o, s') →
      session_wf s' ∧ quiescent s') ∧
  (∀ s self data,
      session_wf s →
      session_wf (on_wishlist self (Wishlist.deserialize data) s).2) ∧
  (∀ s self data wid,
      session_wf s →
      session_wf (on_item self (Item.deserialize data wid) s).2).
Proof.
  split_and!.
  - intros s s' self e Hwf Hq _ _ _ Hsave.
    by destruct (save_preserves s s' self) as (? & ? & ? & ?).
  - intros s s' self Hwf Hq _ Hdel.
    by destruct (delete_preserves s s' self) as (? & ? & ? & ?).
  - intros s s' t i o Hwf Hq _. by apply get_preserves.
  - intros s self data. apply wishlist_deserialize_preserves.
  - intros s self data wid. apply item_deserialize_preserves.
Qed.

Lemma methods_keep_invariants_witness :
  let e0 := AWishlist (Wishlist.mk None (PInt 5) (PStr "gifts")) in
  let s0 := (construct e0 empty_session).2 in
  let s1 := (one_saved empty_session).2 in
  (session_wf s1 ∧ quiescent s1 ∧ clean s1) ∧
  (session_wf (Model.delete 1%positive s1).2 ∧
   quiescent (Model.delete 1%positive s1).2 ∧
   clean (Model.delete 1%positive s1).2) ∧
  (session_wf (Model.get wishlists 3 s1).2 ∧
   quiescent (Model.get wishlists 3 s1).2) ∧
  session_wf (on_wishlist 1%positive (Wishlist.deserialize PNone) s1).2.
Proof.
  intros e0 s0 s1.
  destruct methods_keep_invariants as (Hsave & Hdel & Hget & Hdes & _).
  assert (session_wf s1 ∧ quiescent s1 ∧ clean s1) as H1.
  { apply (Hsave s0 s1 1%positive e0).
    - apply session_wf_b_correct. vm_compute. reflexivity.
    - done.
    - apply flushable_b_correct. vm_compute. reflexivity.
    - vm_compute. reflexivity.
    - vm_compute. reflexivity.
    - vm_compute. reflexivity. }
  destruct H1 as (Hwf1 & Hq1 & Hc1).
  assert (flushable s1) as Hfl1.
  { apply flushable_b_correct. vm_compute. reflexivity. }
  split; [done|]. split; [|split].
  - apply (Hdel s1 _ 1%positive); [done | done | done |]. vm_compute. reflexivity.
  - apply (Hget s1 _ wishlists 3 None); [done | done | done |].
    vm_compute. reflexivity.
  - by apply Hdes.
Defined.

(** ** Copying through the dictionary *)

(** X20: a dictionary carries the data, not the identity.  Deserializing
    the [serialize] of a persisted Wishlist into a new instance and saving
    that instance stores a second row with the same [customer_id] and
    [wishlist_name] under a new id; the row of the original is as it
    was. *)
Theorem serialized_copy_gets_own_row :
  ∀ s x i w copy w0,
    session_wf s → quiescent s → synced s →
    persisted x wishlists i s → objects s !! x = Some (AWishlist w) →
    objects s !! copy = Some (AWishlist w0) → Wishlist.id w0 = None →
    ∃ s1 s' j,
      on_wishlist copy (Wishlist.deserialize (Wishlist.serialize w)) s = (Ok tt, s1) ∧
      Model.save copy s1 = (Ok tt, s') ∧
      j ≠ i ∧
      rows s' !! (wishlists, j)
        = Some (AWishlist (Wishlist.mk (Some j) (Wishlist.customer_id w)
                                       (Wishlist.wishlist_name w))) ∧
      rows s' !! (wishlists, i) = Some (AWishlist w) ∧
      rows s !! (wishlists, j) = None.
Proof.
  intros s x i w copy w0 Hwf Hq Hs Hk Hx Hc0 Hid0.
  assert (flushable s) as Hfl by by apply synced_flushable.
  assert (copy ≠ x) as Hne.
  { intros ->. destruct (wf_identity s Hwf _ _ Hk) as (e & He & _ & Hp).
    rewrite Hc0 in He. injection He as <-. cbn in Hp. congruence. }
  rewrite (on_wishlist_deserialize s copy w0) by done.
  rewrite wishlist_deserialize_serialize. cbn. rewrite Hid0.
  set (e := AWishlist (Wishlist.mk None (Wishlist.customer_id w)
                                   (Wishlist.wishlist_name w))).
  set (s1 := with_object copy e s).
  assert (session_wf s1) as Hwf1.
  { by apply (with_object_wf s copy (AWishlist w0)). }
  assert (columns_ok e = true) as Hok.
  { pose proof (Hfl _ _ _ Hk Hx) as H. by destruct w. }
  assert (flushable s1) as Hfl1 by by apply with_object_flushable.
  assert (objects s1 !! copy = Some e) as He1.
  { cbn. by rewrite lookup_insert_eq. }
  destruct (save_fresh_state s1 copy e) as (Hsave & _); try done.
  assert (rows s !! (wishlists, next_id s wishlists) = None) as Hfree
    by by apply next_id_free.
  assert (next_id s wishlists ≠ i) as Hji.
  { intros Heq. rewrite Heq in Hfree.
    destruct (wf_persistent s Hwf (wishlists, i)) as [e1 He1']; [by eauto|].
    congruence. }
  exists s1. eexists _, (next_id s wishlists).
  split; [done|]. split; [exact Hsave|]. split; [done|]. split_and!.
  - cbn. by rewrite lookup_insert_eq.
  - rewrite (save_fresh_other_rows s1 copy e (wishlists, i)); try done.
    + change (identity_map s1) with (identity_map s). unfold persisted in Hk.
      rewrite Hk. cbn. by rewrite lookup_insert_ne.
    + intros [= Heq]. by apply Hji.
  - done.
Qed.

Lemma serialized_copy_gets_own_row_witness :
  let s := (construct (AWishlist Wishlist.new) (one_saved empty_session).2).2 in
  let w := Wishlist.mk (Some 1) (PInt 5) (PStr "gifts") in
  ∃ s1 s' j,
    on_wishlist 2%positive (Wishlist.deserialize (Wishlist.serialize w)) s
    = (Ok tt, s1) ∧
    Model.save 2%positive s1 = (Ok tt, s') ∧
    j ≠ 1 ∧
    rows s' !! (wishlists, j)
      = Some (AWishlist (Wishlist.mk (Some j) (Wishlist.customer_id w)
                                     (Wishlist.wishlist_name w))) ∧
    rows s' !! (wishlists, 1) = Some (AWishlist w) ∧
    rows s !! (wishlists, j) = None.
Proof.
  intros s w.
  apply (serialized_copy_gets_own_row s 1%positive 1 w 2%positive Wishlist.new).
  - apply session_wf_b_correct. vm_compute. reflexivity.
  - done.
  - apply (construct_synced _ (one_saved empty_session).2).
    + apply session_wf_b_correct. vm_compute. reflexivity.
    + apply one_saved_synced.
  - vm_compute. reflexivity.
  - vm_compute. reflexivity.
  - vm_compute. reflexivity.
  - reflexivity.
Defined.
